(** * movie_pipeline: a shallow embedding of [movie_dags_pipeline.py]

    The script is a sequence of Airflow tasks that call into [csv], [os],
    [pandas], [matplotlib] and a Postgres driver.  Each task is embedded as
    a function on an explicit file-system (or database) state; the library
    calls it makes are embedded once, below, with the behaviour the tasks
    rely on.

    Conventions.
    - A path is the list of its components; [os.path.join(d, name)] is
      [d ++ [name]].
    - A CSV file is represented by the table that [pandas.read_csv] yields
      for it: ordered, uniquely named columns, each of one dtype.
    - [float64] values are represented by the rationals they denote, with
      [None] for NaN; rounding of arithmetic results is not represented.
    - [int64] arithmetic wraps around modulo [2^64]. *)

From Stdlib Require Import ZArith QArith Qround Lqa.
From stdpp Require Import base tactics option list strings gmap pretty sorting.

Set Default Proof Using "Type".

(** ** Python exceptions and outcomes *)

Inductive exn :=
| FileNotFoundError
| IsADirectoryError
| NotADirectoryError
| FileExistsError
| ParserError
| KeyError (key : string)
| TypeError
| ValueError
| MergeError
| IndexError
| ProgrammingError.

Inductive outcome (A : Type) :=
| Ret (a : A)
| Raise (e : exn).
Arguments Ret {A} a.
Arguments Raise {A} e.

Global Instance outcome_ret : MRet outcome := λ A a, Ret a.
Global Instance outcome_bind : MBind outcome := λ A B k o,
  match o with
  | Ret a => k a
  | Raise e => Raise e
  end.

Definition returns {A} (o : outcome A) : bool :=
  match o with Ret _ => true | Raise _ => false end.

(** ** pandas: columns and data frames *)

Definition INT64_MIN : Z := - 2 ^ 63.
Definition INT64_MAX : Z := 2 ^ 63 - 1.

(** The value an [int64] operation stores for the mathematical result [z]. *)
Definition wrap64 (z : Z) : Z := ((z + 2 ^ 63) mod 2 ^ 64 - 2 ^ 63)%Z.

Inductive column :=
| IntCol (xs : list Z)
| FloatCol (xs : list (option Q))
| ObjCol (xs : list (option string)).

Inductive cell :=
| CInt (z : Z)
| CFloat (x : option Q)
| CStr (s : option string).

Definition col_cells (c : column) : list cell :=
  match c with
  | IntCol xs => CInt <$> xs
  | FloatCol xs => CFloat <$> xs
  | ObjCol xs => CStr <$> xs
  end.

Definition col_len (c : column) : nat := length (col_cells c).

(** Positional selection, as [Series.take]; an index out of range is
    dropped (the indexers built below are always in range). *)
Definition series_take {A} (idx : list nat) (xs : list A) : list A :=
  omap (fun i => xs !! i) idx.

Definition col_take (idx : list nat) (c : column) : column :=
  match c with
  | IntCol xs => IntCol (series_take idx xs)
  | FloatCol xs => FloatCol (series_take idx xs)
  | ObjCol xs => ObjCol (series_take idx xs)
  end.

Abbreviation DataFrame := (list (string * column)).

Definition df_columns (df : DataFrame) : list string := df.*1.

(** [len(df)]: the length of the index. *)
Definition df_len (df : DataFrame) : nat :=
  match df with
  | [] => 0
  | (_, c) :: _ => col_len c
  end.

(** [df[name]]. *)
Fixpoint df_getitem (df : DataFrame) (name : string) : outcome column :=
  match df with
  | [] => Raise (KeyError name)
  | (n, c) :: df' => if decide (n = name) then Ret c else df_getitem df' name
  end.

(** [df[name] = c]: an existing column is replaced in place, a new one is
    appended. *)
Fixpoint df_setitem (df : DataFrame) (name : string) (c : column) : DataFrame :=
  match df with
  | [] => [(name, c)]
  | (n, c') :: df' =>
      if decide (n = name) then (n, c) :: df'
      else (n, c') :: df_setitem df' name c
  end.

(** The cell of column [name] at row [i]. *)
Definition df_cell (df : DataFrame) (name : string) (i : nat) : option cell :=
  match df_getitem df name with
  | Ret c => col_cells c !! i
  | Raise _ => None
  end.

(** What [read_csv] guarantees of the frame it returns. *)
Definition df_wf (df : DataFrame) : Prop :=
  df ≠ [] ∧ NoDup (df_columns df) ∧ Forall (λ nc, col_len nc.2 = df_len df) df.

Global Instance df_wf_dec (df : DataFrame) : Decision (df_wf df).
Proof. unfold df_wf. apply _. Defined.

(** *** Arithmetic on a column *)

Definition has_text (xs : list (option string)) : bool :=
  existsb (λ x, bool_decide (is_Some x)) xs.

(** [series // k] for a positive Python int [k]; on [object] dtype the
    operation is applied element by element and fails on a string. *)
Definition col_floordiv (c : column) (k : Z) : outcome column :=
  match c with
  | IntCol xs => Ret (IntCol ((fun x => x `div` k)%Z <$> xs))
  | FloatCol xs =>
      Ret (FloatCol (fmap (M:=option) (fun x => inject_Z (Qfloor (x / inject_Z k))) <$> xs))
  | ObjCol xs => if has_text xs then Raise TypeError else Ret (ObjCol xs)
  end.

Fixpoint str_repeat (s : string) (n : nat) : string :=
  match n with
  | O => ""
  | S n' => s +:+ str_repeat s n'
  end.

(** [series * k] for a Python int [k]; on [object] dtype Python's [str * int]
    applies element by element. *)
Definition col_mul (c : column) (k : Z) : column :=
  match c with
  | IntCol xs => IntCol ((fun x => wrap64 (x * k)) <$> xs)
  | FloatCol xs => FloatCol (fmap (M:=option) (fun x => x * inject_Z k)%Q <$> xs)
  | ObjCol xs => ObjCol (fmap (M:=option) (fun s => str_repeat s (Z.to_nat k)) <$> xs)
  end.

(** *** [pandas.cut] with the default [right=True], [include_lowest=False] *)

Definition Qlt_bool (x y : Q) : bool := negb (Qle_bool y x).

Fixpoint cut_value (bins : list Q) (labels : list string) (x : Q) : option string :=
  match bins, labels with
  | lo :: ((hi :: _) as bins'), lab :: labels' =>
      if Qlt_bool lo x && Qle_bool x hi then Some lab
      else cut_value bins' labels' x
  | _, _ => None
  end.

(** The result is a categorical series; [to_csv] writes a category as its
    label and a missing one as the empty field, which is how it is kept.
    Strings cannot be compared with the bins. *)
Definition cut (c : column) (bins : list Q) (labels : list string) : outcome column :=
  match c with
  | IntCol xs => Ret (ObjCol ((fun x => cut_value bins labels (inject_Z x)) <$> xs))
  | FloatCol xs => Ret (ObjCol ((fun x => x ≫= cut_value bins labels) <$> xs))
  | ObjCol xs => if has_text xs then Raise TypeError else Ret (ObjCol xs)
  end.

(** ** The file system *)

Abbreviation path := (list string).

(** What [Series.plot(kind="bar")] draws: one bar per entry of the series. *)
Record chart := Chart {
  chart_title : string;
  chart_ylabel : string;
  chart_bars : list (cell * option Q)
}.

Inductive content :=
| Csv (df : DataFrame)
| Png (fig : chart)
| Blob (bytes : string).

Inductive node :=
| Dir
| File (c : content).

Abbreviation files := (gmap path node).

(** The root always exists. *)
Definition isdir (fs : files) (p : path) : bool :=
  match p with
  | [] => true
  | _ => match fs !! p with Some Dir => true | _ => false end
  end.

Definition isfile (fs : files) (p : path) : bool :=
  match fs !! p with Some (File _) => true | _ => false end.

Definition dirname (p : path) : path := removelast p.

Definition os_path_join (d : path) (name : string) : path := d ++ [name].

(** A task on the file system: it leaves a state behind also when it
    raises. *)
Definition task (A : Type) : Type := files → files * outcome A.

Global Instance task_ret : MRet task := λ A a fs, (fs, Ret a).
Global Instance task_bind : MBind task := λ A B k m fs,
  match m fs with
  | (fs', Ret a) => k a fs'
  | (fs', Raise e) => (fs', Raise e)
  end.

(** A read of the current state. *)
Definition lift {A} (f : files → outcome A) : task A := λ fs, (fs, f fs).

(** Why [open(p, "w")] fails, if it does: the directory of [p] must exist
    and [p] must not be a directory. *)
Definition open_error (fs : files) (p : path) : option exn :=
  if negb (isdir fs (dirname p)) then
    Some (match fs !! dirname p with Some _ => NotADirectoryError | None => FileNotFoundError end)
  else if isdir fs p then Some IsADirectoryError
  else None.

(** [open(p, "w")] followed by writing [c] and closing: creates or
    truncates the file. *)
Definition write_file (p : path) (c : content) : task unit := λ fs,
  match open_error fs p with
  | Some e => (fs, Raise e)
  | None => (<[p := File c]> fs, Ret ())
  end.

(** [pandas.read_csv(p)]. *)
Definition read_csv (p : path) (fs : files) : outcome DataFrame :=
  match fs !! p with
  | Some (File (Csv df)) => Ret df
  | Some (File _) => Raise ParserError
  | Some Dir => Raise IsADirectoryError
  | None => Raise FileNotFoundError
  end.

(** [df.to_csv(p, index=False)]. *)
Definition to_csv (df : DataFrame) (p : path) : task unit := write_file p (Csv df).

(** [plt.savefig(p)] of the current figure. *)
Definition savefig (fig : chart) (p : path) : task unit := write_file p (Png fig).

(** The non-empty prefixes of a path, shortest first. *)
Definition ancestors (p : path) : list path := (λ n, firstn n p) <$> seq 1 (length p).

(** [os.makedirs(p, exist_ok=True)]. *)
Definition os_makedirs (p : path) : task unit := λ fs,
  if existsb (isfile fs) (ancestors p)
  then (fs, Raise FileExistsError)
  else (foldr (λ q, <[q := Dir]>) fs (ancestors p), Ret ()).

(** The names directly inside [d], in the order of the map. *)
Definition entries (d : path) (fs : files) : list string :=
  omap (λ p, if decide (dirname p = d) then last p else None) (map_to_list fs).*1.

(** [os.remove(p)]. *)
Definition os_remove (p : path) : task unit := λ fs,
  match fs !! p with
  | Some (File _) => (delete p fs, Ret ())
  | Some Dir => (fs, Raise IsADirectoryError)
  | None => (fs, Raise FileNotFoundError)
  end.

(** *** Joining two frames: [pandas.merge(left, right, on=key, how="inner")] *)

(** Whether two join keys match.  Integers and floats compare by value and
    missing keys match each other; keys of [object] dtype match when they
    are the same string. *)
Definition key_eqb (a b : cell) : bool :=
  match a, b with
  | CInt x, CInt y => bool_decide (x = y)
  | CInt x, CFloat (Some y) => Qeq_bool (inject_Z x) y
  | CFloat (Some x), CInt y => Qeq_bool x (inject_Z y)
  | CFloat (Some x), CFloat (Some y) => Qeq_bool x y
  | CFloat None, CFloat None => true
  | CStr x, CStr y => bool_decide (x = y)
  | _, _ => false
  end.

Definition is_object (c : column) : bool :=
  match c with ObjCol _ => true | _ => false end.

(** The pairs of row positions whose keys match, left rows in order. *)
Definition join_pairs (lk rk : list cell) : list (nat * nat) :=
  i ← seq 0 (length lk);
  j ← seq 0 (length rk);
  match lk !! i, rk !! j with
  | Some a, Some b => if key_eqb a b then [(i, j)] else []
  | _, _ => []
  end.

(** A column name that occurs on both sides, the key apart, gets the suffix
    of its side. *)
Definition suffix_left (on : string) (right : DataFrame) (n : string) : string :=
  if bool_decide (n ≠ on ∧ n ∈ df_columns right) then n +:+ "_x" else n.

Definition suffix_right (left : DataFrame) (n : string) : string :=
  if bool_decide (n ∈ df_columns left) then n +:+ "_y" else n.

Definition pd_merge (left right : DataFrame) (on : string) : outcome DataFrame :=
  lk ← df_getitem left on;
  rk ← df_getitem right on;
  if negb (eqb (is_object lk) (is_object rk)) then Raise ValueError else
  let pairs := join_pairs (col_cells lk) (col_cells rk) in
  let lcols := (λ '(n, c), (suffix_left on right n, col_take pairs.*1 c)) <$> left in
  let rcols := (λ '(n, c), (suffix_right left n, col_take pairs.*2 c))
                 <$> filter (λ nc, nc.1 ≠ on) right in
  let merged := lcols ++ rcols in
  if bool_decide (NoDup (df_columns merged)) then Ret merged else Raise MergeError.

(** *** [df.groupby(key)[value].mean()] *)

Definition is_missing (k : cell) : bool :=
  match k with
  | CFloat None | CStr None => true
  | _ => false
  end.

(** The values of a numeric column as floats. *)
Definition col_floats (c : column) : outcome (list (option Q)) :=
  match c with
  | IntCol xs => Ret ((λ x, Some (inject_Z x)) <$> xs)
  | FloatCol xs => Ret xs
  | ObjCol _ => Raise TypeError
  end.

(** Rows are collected group by group, a group per distinct key in order
    of first appearance; rows whose key is missing are dropped. *)
Fixpoint group_add (k : cell) (v : option Q) (gs : list (cell * list (option Q)))
  : list (cell * list (option Q)) :=
  match gs with
  | [] => [(k, [v])]
  | (k', vs) :: gs' =>
      if key_eqb k k' then (k', vs ++ [v]) :: gs'
      else (k', vs) :: group_add k v gs'
  end.

Definition group_rows (rows : list (cell * option Q)) : list (cell * list (option Q)) :=
  foldl (λ gs '(k, v), if is_missing k then gs else group_add k v gs) [] rows.

Definition cell_leb (a b : cell) : bool :=
  match a, b with
  | CInt x, CInt y => bool_decide (x ≤ y)%Z
  | CFloat (Some x), CFloat (Some y) => Qle_bool x y
  | CStr (Some x), CStr (Some y) => String.leb x y
  | _, _ => true
  end.

(** The groups come out sorted by key. *)
Fixpoint sort_insert {A} (g : cell * A) (gs : list (cell * A)) : list (cell * A) :=
  match gs with
  | [] => [g]
  | g' :: gs' => if cell_leb g.1 g'.1 then g :: gs else g' :: sort_insert g gs'
  end.

Definition sort_groups {A} (gs : list (cell * A)) : list (cell * A) :=
  foldr sort_insert [] gs.

Definition Qsum (xs : list Q) : Q := foldr Qplus 0%Q xs.

(** The mean skips missing values; of no value at all it is NaN. *)
Definition mean (vs : list (option Q)) : option Q :=
  let xs := omap id vs in
  match xs with
  | [] => None
  | _ => Some (Qsum xs / inject_Z (Z.of_nat (length xs)))%Q
  end.

Definition groupby_mean (df : DataFrame) (key value : string)
  : outcome (list (cell * option Q)) :=
  k ← df_getitem df key;
  v ← df_getitem df value;
  vs ← col_floats v;
  Ret (prod_map id mean <$> sort_groups (group_rows (zip (col_cells k) vs))).

(** [series.plot(kind="bar", title=...)]: a series without entries cannot
    be drawn. *)
Definition plot_bar (series : list (cell * option Q)) (title : string) : outcome chart :=
  match series with
  | [] => Raise IndexError
  | _ => Ret (Chart title "" series)
  end.

Definition plt_ylabel (label : string) (fig : chart) : chart :=
  Chart (chart_title fig) label (chart_bars fig).

(** ** Python values and the [csv] writer *)

Inductive pyval :=
| PyInt (z : Z)
| PyFloat (x : Q)
| PyStr (s : string).

Abbreviation pydict := (list (string * pyval)).

Fixpoint dict_get (d : pydict) (k : string) : option pyval :=
  match d with
  | [] => None
  | (k', v) :: d' => if decide (k' = k) then Some v else dict_get d' k
  end.

Definition dict_keys (d : pydict) : list string := d.*1.

Definition is_int64 (v : option pyval) : option Z :=
  match v with
  | Some (PyInt z) => if bool_decide (INT64_MIN ≤ z ≤ INT64_MAX)%Z then Some z else None
  | _ => None
  end.

Definition is_number (v : option pyval) : option (option Q) :=
  match v with
  | Some (PyInt z) => Some (Some (inject_Z z))
  | Some (PyFloat x) => Some (Some x)
  | Some (PyStr _) => None
  | None => Some None
  end.

Section pipeline.

(** The text of [repr(x)] for a float [x]. *)
Variable float_repr : Q → string.

(** [str(v)]. *)
Definition py_str (v : pyval) : string :=
  match v with
  | PyInt z => pretty z
  | PyFloat x => float_repr x
  | PyStr s => s
  end.

(** The column [read_csv] makes of the fields written for one field name;
    [None] is a field left empty.  (No string of the data below spells a
    number or a missing value, and the case is not treated.) *)
Definition written_column (vs : list (option pyval)) : column :=
  match mapM is_int64 vs with
  | Some zs => IntCol zs
  | None =>
      match mapM is_number vs with
      | Some xs => FloatCol xs
      | None => ObjCol (fmap (M:=option) py_str <$> vs)
      end
  end.

(** [csv.DictWriter(f, fieldnames)], [writeheader()], [writerows(data)]: a
    key outside [fieldnames] is refused, a missing one leaves the field
    empty. *)
Definition DictWriter (fieldnames : list string) (data : list pydict) : outcome DataFrame :=
  if forallb (λ d, forallb (λ k, bool_decide (k ∈ fieldnames)) (dict_keys d)) data
  then Ret ((λ f, (f, written_column ((λ d, dict_get d f) <$> data))) <$> fieldnames)
  else Raise ValueError.

(** ** Configuration *)

Definition OUTPUT_DIR : path := ["opt"; "airflow"; "data"; "movies"].
Definition TARGET_TABLE : string := "movies_final".
Definition SCHEMA : string := "week9_movies".

(** ** The tasks *)

Definition movies_data : list pydict :=
  [ [("movie_id", PyInt 1); ("title", PyStr "Inception"); ("genre", PyStr "Sci-Fi"); ("year", PyInt 2010)];
    [("movie_id", PyInt 2); ("title", PyStr "The Dark Knight"); ("genre", PyStr "Action"); ("year", PyInt 2008)];
    [("movie_id", PyInt 3); ("title", PyStr "Interstellar"); ("genre", PyStr "Sci-Fi"); ("year", PyInt 2014)];
    [("movie_id", PyInt 4); ("title", PyStr "Tenet"); ("genre", PyStr "Action"); ("year", PyInt 2020)];
    [("movie_id", PyInt 5); ("title", PyStr "Dunkirk"); ("genre", PyStr "War"); ("year", PyInt 2017)] ].

Definition ratings_data : list pydict :=
  [ [("movie_id", PyInt 1); ("user_id", PyInt 101); ("rating", PyFloat 9.0)];
    [("movie_id", PyInt 2); ("user_id", PyInt 102); ("rating", PyFloat 9.5)];
    [("movie_id", PyInt 3); ("user_id", PyInt 103); ("rating", PyFloat 8.8)];
    [("movie_id", PyInt 4); ("user_id", PyInt 104); ("rating", PyFloat 7.5)];
    [("movie_id", PyInt 5); ("user_id", PyInt 105); ("rating", PyFloat 8.0)] ].

(** [with open(path, "w") as f: DictWriter(f, ...)...]: opening truncates
    the file before anything is written to it. *)
Definition write_dicts (p : path) (data : list pydict) : task unit :=
  write_file p (Blob "");;
  table ← lift (λ _, DictWriter (dict_keys (default [] (head data))) data);
  write_file p (Csv table).

Definition fetch_movies (output_dir : path) : task path :=
  let data := movies_data in
  let path := os_path_join output_dir "movies.csv" in
  write_dicts path data;;
  mret path.

Definition fetch_ratings (output_dir : path) : task path :=
  let data := ratings_data in
  let path := os_path_join output_dir "ratings.csv" in
  write_dicts path data;;
  mret path.

Definition transform_movies (movies_path : path) : task path :=
  df ← lift (read_csv movies_path);
  decade ← lift (λ _, year ← df_getitem df "year"; q ← col_floordiv year 10; mret (col_mul q 10));
  let df := df_setitem df "decade" decade in
  let path := os_path_join OUTPUT_DIR "movies_transformed.csv" in
  to_csv df path;;
  mret path.

Definition rating_bins : list Q := [0; 7; 8.5; 10]%Q.
Definition rating_labels : list string := ["Low"; "Medium"; "High"].

Definition transform_ratings (ratings_path : path) : task path :=
  df ← lift (read_csv ratings_path);
  category ← lift (λ _, rating ← df_getitem df "rating"; cut rating rating_bins rating_labels);
  let df := df_setitem df "rating_category" category in
  let path := os_path_join OUTPUT_DIR "ratings_transformed.csv" in
  to_csv df path;;
  mret path.

Definition merge_datasets (movies_path ratings_path : path) : task path :=
  df_movies ← lift (read_csv movies_path);
  df_ratings ← lift (read_csv ratings_path);
  merged ← lift (λ _, pd_merge df_movies df_ratings "movie_id");
  let merged_path := os_path_join OUTPUT_DIR "merged_movies.csv" in
  to_csv merged merged_path;;
  mret merged_path.

Definition analyze_and_visualize (csv_path : path) : task path :=
  df ← lift (read_csv csv_path);
  let output_dir := os_path_join OUTPUT_DIR "visuals" in
  os_makedirs output_dir;;
  genre_avg ← lift (λ _, groupby_mean df "genre" "rating");
  fig ← lift (λ _, plot_bar genre_avg "Average Rating by Genre");
  let fig := plt_ylabel "Average Rating" fig in
  let path := os_path_join output_dir "avg_rating_by_genre.png" in
  savefig fig path;;
  mret path.

(** The order in which [os.listdir] reports the entries of a directory is
    the file system's own. *)
Variable listdir_order : list string → list string.

(** [os.listdir(d)]. *)
Definition os_listdir (d : path) (fs : files) : outcome (list string) :=
  if isdir fs d then Ret (listdir_order (entries d fs))
  else Raise (match fs !! d with Some _ => NotADirectoryError | None => FileNotFoundError end).

(** [for x in xs: body(x)]. *)
Fixpoint for_each {A} (xs : list A) (body : A → task unit) : task unit :=
  match xs with
  | [] => mret ()
  | x :: xs' => body x;; for_each xs' body
  end.

(** [s.endswith(suffix)]. *)
Definition endswith (s suffix : string) : bool :=
  String.prefix (String.rev suffix) (String.rev s).

Definition cleanup_folder (folder : path) : task unit :=
  names ← lift (os_listdir folder);
  for_each names (λ file,
    if endswith file ".csv" then os_remove (os_path_join folder file) else mret ()).

(** Line 16 of the script, run when the module is imported. *)
Definition module_init : task unit := os_makedirs OUTPUT_DIR.

(** [transform_movies(fetch_movies())] and [transform_ratings(fetch_ratings())]:
    the two branches of the task group. *)
Definition movies_branch : task path := fetch_movies OUTPUT_DIR ≫= transform_movies.
Definition ratings_branch : task path := fetch_ratings OUTPUT_DIR ≫= transform_ratings.

End pipeline.

(** ** Postgres *)

(** A table whose columns are all [TEXT]; a row has one field per column,
    [None] for NULL. *)
Record table := Table {
  tcols : list string;
  trows : list (list (option string))
}.

Record database := Database {
  schemas : gset string;
  tables : gmap (string * string) table
}.

Inductive stmt :=
| CreateSchemaIfNotExists (schema : string)
| CreateTableIfNotExists (schema name : string) (columns : list string)
| InsertInto (schema name : string) (columns : list string) (values : list string).

Section postgres.

(** The column Postgres understands a piece of SQL text to name: [None]
    when the text is not one identifier.  (The schema and table names of the
    script are identifiers as they stand.) *)
Variable sql_ident : string → option string.

Definition idents (columns : list string) : outcome (list string) :=
  match mapM sql_ident columns with
  | Some cs => Ret cs
  | None => Raise ProgrammingError
  end.

(** The row an [INSERT] with the column list [cs] and values [vs] adds to a
    table with columns [tcs]: columns not listed are NULL. *)
Definition inserted_row (tcs cs : list string) (vs : list string) : list (option string) :=
  (λ tc, (list_to_map (zip cs vs) : gmap string string) !! tc) <$> tcs.

(** [cur.execute(stmt)]. *)
Definition execute (st : stmt) (db : database) : outcome database :=
  match st with
  | CreateSchemaIfNotExists s =>
      Ret (Database ({[s]} ∪ schemas db) (tables db))
  | CreateTableIfNotExists s t columns =>
      cs ← idents columns;
      if bool_decide (s ∉ schemas db) then Raise ProgrammingError else
      match tables db !! (s, t) with
      | Some _ => Ret db
      | None =>
          if bool_decide (NoDup cs)
          then Ret (Database (schemas db) (<[(s, t) := Table cs []]> (tables db)))
          else Raise ProgrammingError
      end
  | InsertInto s t columns values =>
      cs ← idents columns;
      match tables db !! (s, t) with
      | None => Raise ProgrammingError
      | Some tb =>
          if bool_decide (NoDup cs ∧ cs ⊆ tcols tb ∧ length values = length cs)
          then Ret (Database (schemas db)
                 (<[(s, t) := Table (tcols tb) (trows tb ++ [inserted_row (tcols tb) cs values])]>
                    (tables db)))
          else Raise ProgrammingError
      end
  end.

Fixpoint execute_all (sts : list stmt) (db : database) : outcome database :=
  match sts with
  | [] => Ret db
  | st :: sts' => db' ← execute st db; execute_all sts' db'
  end.

Variable float_repr : Q → string.

Definition is_float (c : column) : bool :=
  match c with FloatCol _ => true | _ => false end.

(** [str(x)] for an element [x] of a row; [as_float] tells that the row is
    of dtype [float64], its integers having been converted. *)
Definition cell_str (as_float : bool) (x : cell) : string :=
  match x with
  | CInt z => if as_float then float_repr (inject_Z z) else pretty z
  | CFloat (Some q) => float_repr q
  | CFloat None => "nan"
  | CStr (Some s) => s
  | CStr None => "nan"
  end.

(** [tuple(map(str, row))] for each [row] of [df.iterrows()].  A row is a
    series of one dtype: over numeric columns of which one is [float64] it
    is [float64], and with a column of dtype [object] it is [object]. *)
Definition iterrows_str (df : DataFrame) : list (list string) :=
  let as_float := forallb (λ nc, negb (is_object nc.2)) df && existsb (λ nc, is_float nc.2) df in
  (λ i, omap (λ nc, cell_str as_float <$> col_cells nc.2 !! i) df) <$> seq 0 (df_len df).

(** The statements the cursor executes, in order. *)
Definition load_statements (df : DataFrame) : list stmt :=
  let columns := df_columns df in
  let create_schema := CreateSchemaIfNotExists SCHEMA in
  let create_table := CreateTableIfNotExists SCHEMA TARGET_TABLE columns in
  let insert_sql := InsertInto SCHEMA TARGET_TABLE columns in
  [create_schema; create_table] ++ (insert_sql <$> iterrows_str df).

(** Nothing is committed when a statement fails. *)
Definition load_to_postgres (csv_path : path) (fs : files) (db : database)
  : database * outcome nat :=
  match read_csv csv_path fs with
  | Raise e => (db, Raise e)
  | Ret df =>
      match execute_all (load_statements df) db with
      | Ret db' => (db', Ret (df_len df))
      | Raise e => (db, Raise e)
      end
  end.

End postgres.

(** The rows of the target table; none when it does not exist. *)
Definition target_rows (db : database) : list (list (option string)) :=
  from_option trows [] (tables db !! (SCHEMA, TARGET_TABLE)).

(** ** The DAG *)

Inductive task_id :=
| t_fetch_movies
| t_fetch_ratings
| t_transform_movies
| t_transform_ratings
| t_merge_datasets
| t_load_to_postgres
| t_analyze_and_visualize
| t_cleanup_folder.

Global Instance task_id_eq_dec : EqDecision task_id.
Proof. solve_decision. Defined.

(** The tasks a task waits for: those whose result it is called with, and
    those the [>>] lines put before it. *)
Definition upstream (t : task_id) : list task_id :=
  match t with
  | t_fetch_movies => []
  | t_fetch_ratings => []
  | t_transform_movies => [t_fetch_movies]
  | t_transform_ratings => [t_fetch_ratings]
  | t_merge_datasets => [t_transform_movies; t_transform_ratings]
  | t_load_to_postgres => [t_merge_datasets]
  | t_analyze_and_visualize => [t_merge_datasets; t_load_to_postgres]
  | t_cleanup_folder => [t_analyze_and_visualize]
  end.

Inductive event :=
| Start (t : task_id)
| Succeed (t : task_id)
| Fail (t : task_id).

(** What the scheduler remembers of a run. *)
Record sched := Sched {
  running : list task_id;
  succeeded : list task_id
}.

(** The scheduler starts a task only when every task upstream of it has
    succeeded (the default trigger rule); a failed task may be started
    again (retries). *)
Definition sched_step (s : sched) (e : event) : option sched :=
  match e with
  | Start t =>
      if bool_decide ((t ∉ running s) ∧ (t ∉ succeeded s) ∧ Forall (λ u, u ∈ succeeded s) (upstream t))
      then Some (Sched (t :: running s) (succeeded s)) else None
  | Succeed t =>
      if bool_decide (t ∈ running s)
      then Some (Sched (filter (λ u, u ≠ t) (running s)) (t :: succeeded s)) else None
  | Fail t =>
      if bool_decide (t ∈ running s)
      then Some (Sched (filter (λ u, u ≠ t) (running s)) (succeeded s)) else None
  end.

Fixpoint sched_run (s : sched) (es : list event) : option sched :=
  match es with
  | [] => Some s
  | e :: es' => s' ← sched_step s e; sched_run s' es'
  end.

Definition sched_init : sched := Sched [] [].

(** ** Vocabulary of the statements *)

(** The contents the fetch tasks write. *)
Definition movies_csv : DataFrame :=
  [ ("movie_id", IntCol [1; 2; 3; 4; 5]%Z);
    ("title", ObjCol [Some "Inception"; Some "The Dark Knight"; Some "Interstellar"; Some "Tenet"; Some "Dunkirk"]);
    ("genre", ObjCol [Some "Sci-Fi"; Some "Action"; Some "Sci-Fi"; Some "Action"; Some "War"]);
    ("year", IntCol [2010; 2008; 2014; 2020; 2017]%Z) ].

Definition ratings_csv : DataFrame :=
  [ ("movie_id", IntCol [1; 2; 3; 4; 5]%Z);
    ("user_id", IntCol [101; 102; 103; 104; 105]%Z);
    ("rating", FloatCol [Some 9.0; Some 9.5; Some 8.8; Some 7.5; Some 8.0]%Q) ].

(** The number a cell holds, as a float. *)
Definition cell_float (x : cell) : option Q :=
  match x with
  | CInt z => Some (inject_Z z)
  | CFloat q => q
  | CStr _ => None
  end.

(** [out] is [df] with one more column at the end. *)
Definition extended_with (df out : DataFrame) (name : string) (c : column) : Prop :=
  out = df ++ [(name, c)].

(** [(year // 10) * 10] in the dtype of the year. *)
Definition decade_of (x : cell) : cell :=
  match x with
  | CInt y => CInt (wrap64 (y `div` 10 * 10))
  | CFloat q => CFloat ((λ y, inject_Z (Qfloor (y / 10)) * 10)%Q <$> q)
  | CStr s => CStr s
  end.

(** The state the import of the module leaves on an empty file system. *)
Definition fresh_fs : files := (module_init ∅).1.

(** The contents the two branches leave behind. *)
Definition movies_transformed_csv : DataFrame :=
  movies_csv ++ [("decade", IntCol [2010; 2000; 2010; 2020; 2010]%Z)].

Definition ratings_transformed_csv : DataFrame :=
  ratings_csv ++ [("rating_category", ObjCol [Some "High"; Some "High"; Some "High"; Some "Medium"; Some "Medium"])].

(** [q] is a file directly inside [folder] whose name ends in [.csv]. *)
Definition csv_file_in (folder : path) (fs : files) (q : path) : Prop :=
  ∃ name c, q = os_path_join folder name ∧ endswith name ".csv" = true
            ∧ fs !! q = Some (File c).

(** [fs'] is [fs] without the CSV files of [folder], and nothing else is
    changed. *)
Definition cleaned (folder : path) (fs fs' : files) : Prop :=
  ∀ q, (csv_file_in folder fs q → fs' !! q = None)
       ∧ (¬ csv_file_in folder fs q → fs' !! q = fs !! q).

(** No directory directly inside [folder] has a name ending in [.csv]. *)
Definition no_csv_subdir (folder : path) (fs : files) : bool :=
  forallb (λ name, negb (isdir fs (os_path_join folder name) && endswith name ".csv"))
    (entries folder fs).

(** An output directory holding a CSV file and the chart. *)
Definition fs_with_chart : files :=
  <[os_path_join (os_path_join OUTPUT_DIR "visuals") "avg_rating_by_genre.png"
      := File (Png (Chart "Average Rating by Genre" "Average Rating" []))]>
    (<[os_path_join OUTPUT_DIR "visuals" := Dir]>
       (<[os_path_join OUTPUT_DIR "movies.csv" := File (Csv movies_csv)]> fresh_fs)).

(** An output directory holding a CSV file and a directory named like one. *)
Definition fs_with_csv_dir : files :=
  <[os_path_join OUTPUT_DIR "old.csv" := Dir]>
    (<[os_path_join OUTPUT_DIR "movies.csv" := File (Csv movies_csv)]> fresh_fs).

(** The tasks upstream of [t], directly or through other tasks, found in
    at most [n] steps. *)
Fixpoint upstream_within (n : nat) (t : task_id) : list task_id :=
  match n with
  | O => []
  | S n' => upstream t ++ (upstream t ≫= upstream_within n')
  end.

Definition all_upstream (t : task_id) : list task_id := upstream_within 8 t.

(** What holds of the scheduler's state after the events [pre]. *)
Definition sched_inv (pre : list event) (s : sched) : Prop :=
  (∀ t, t ∈ succeeded s → Succeed t ∈ pre)
  ∧ (∀ t, t ∈ running s ∨ t ∈ succeeded s → ∀ u, u ∈ upstream t → u ∈ succeeded s).

(** A run of the whole DAG, one task after the other. *)
Definition sequential_run : list event :=
  [t_fetch_movies; t_fetch_ratings; t_transform_movies; t_transform_ratings;
   t_merge_datasets; t_load_to_postgres; t_analyze_and_visualize; t_cleanup_folder]
  ≫= λ t, [Start t; Succeed t].

(** The cells of row [i], in the order of the columns. *)
Definition df_row (df : DataFrame) (i : nat) : list cell :=
  omap (λ nc, col_cells nc.2 !! i) df.

Definition df_rows (df : DataFrame) : list (list cell) :=
  df_row df <$> seq 0 (df_len df).

Definition drop_column (df : DataFrame) (name : string) : DataFrame :=
  filter (λ nc, nc.1 ≠ name) df.

(** The column names of the merge of two frames on [on]. *)
Definition merged_columns (on : string) (left right : DataFrame) : list string :=
  (suffix_left on right <$> df_columns left)
  ++ (suffix_right left <$> df_columns (drop_column right on)).

(** A [repr] for evaluating the tasks on data without floats to print. *)
Definition no_repr : Q → string := λ _, "".

(** The state after the module was imported on an empty file system and
    both branches have run. *)
Definition fs_transformed : files :=
  (ratings_branch no_repr (movies_branch no_repr fresh_fs).1).1.

(** The ratings of the rows whose key matches [k], missing ones included. *)
Definition values_of (rows : list (cell * option Q)) (k : cell) : list (option Q) :=
  (filter (λ kv, key_eqb kv.1 k = true) rows).*2.

(** No two groups have matching keys. *)
Fixpoint groups_distinct {A} (gs : list (cell * A)) : Prop :=
  match gs with
  | [] => True
  | g :: gs' => (∀ g', g' ∈ gs' → key_eqb g.1 g'.1 = false) ∧ groups_distinct gs'
  end.

(** The arithmetic mean of the numbers among [vs]; NaN when there is none. *)
Definition arithmetic_mean (vs : list (option Q)) : option Q :=
  match omap id vs with
  | [] => None
  | x :: xs => Some ((x + Qsum xs) / inject_Z (Z.of_nat (S (length xs))))%Q
  end.

(** The merged table of the two fixed datasets, and the state after the
    merge. *)
Definition merged_csv : DataFrame :=
  movies_transformed_csv ++ tail ratings_transformed_csv.

Definition fs_merged : files :=
  (merge_datasets (os_path_join OUTPUT_DIR "movies_transformed.csv")
     (os_path_join OUTPUT_DIR "ratings_transformed.csv") fs_transformed).1.

(** The target table, if it exists, has all the columns [cs]. *)
Definition accepts_columns (db : database) (cs : list string) : bool :=
  from_option (λ tb, bool_decide (cs ⊆ tcols tb)) true (tables db !! (SCHEMA, TARGET_TABLE)).

(** The columns of the target table after a load of the columns [cs]. *)
Definition target_columns (db : database) (cs : list string) : list string :=
  from_option tcols cs (tables db !! (SCHEMA, TARGET_TABLE)).

(** A database without tables, and one whose target table has a row. *)
Definition db_empty : database := Database ∅ ∅.

Definition db_loaded : database :=
  Database {[SCHEMA]}
    {[(SCHEMA, TARGET_TABLE) := Table ["movie_id"; "title"] [[Some "7"; Some "Heat"]]]}.

(** A one-row CSV file in the output directory. *)
Definition one_row_csv : DataFrame :=
  [("movie_id", IntCol [1%Z]); ("title", ObjCol [Some "Inception"])].

Definition fs_one_row : files :=
  <[os_path_join OUTPUT_DIR "merged_movies.csv" := File (Csv one_row_csv)]> fresh_fs.

(** A ratings file with a missing rating and a category column of its own. *)
Definition ratings_with_gap : DataFrame :=
  [("rating", FloatCol [Some 9.0; None]%Q); ("rating_category", ObjCol [Some "old"; Some "old"])].

(** No two entries of a key column match. *)
Definition keys_unique (ks : list cell) : bool :=
  forallb (λ ia, forallb (λ jb, negb (key_eqb ia.2 jb.2) || bool_decide (ia.1 = jb.1))
                   (imap pair ks))
    (imap pair ks).

(** Every key of [rk] matches a key of [lk]. *)
Definition keys_covered (lk rk : list cell) : bool :=
  forallb (λ b, existsb (λ a, key_eqb a b) lk) rk.

(** A database whose target table has the columns in another order, and
    one more. *)
Definition db_wide : database :=
  Database {[SCHEMA]}
    {[(SCHEMA, TARGET_TABLE) :=
        Table ["title"; "note"; "movie_id"] [[Some "Heat"; Some "seen"; Some "7"]]]}.

(** The task an event is about. *)
Definition event_task (e : event) : task_id :=
  match e with Start t | Succeed t | Fail t => t end.

(** The bars stand in the order of their keys. *)
Definition bars_sorted {A} (bars : list (cell * A)) : Prop :=
  Sorted (λ a b, cell_leb a.1 b.1 = true) bars.

(** A run of the DAG in which every task succeeds at its first try.  The
    tasks run in an order the dependencies allow, each on the files the one
    before left and called with what the tasks upstream of it returned
    (lines 100-101 and 178-181); [n] and [png] are what [load_to_postgres]
    and [analyze_and_visualize] return. *)
Definition pipeline_run (float_repr : Q → string)
    (listdir_order : list string → list string) (sql_ident : string → option string)
    (fs : files) (db : database) (fs' : files) (db' : database) (n : nat) (png : path) : Prop :=
  ∃ fs1 fs2 fs3 fs4 movies_transformed ratings_transformed merged_path,
    movies_branch float_repr fs = (fs1, Ret movies_transformed)
    ∧ ratings_branch float_repr fs1 = (fs2, Ret ratings_transformed)
    ∧ merge_datasets movies_transformed ratings_transformed fs2 = (fs3, Ret merged_path)
    ∧ load_to_postgres sql_ident float_repr merged_path fs3 db = (db', Ret n)
    ∧ analyze_and_visualize merged_path fs3 = (fs4, Ret png)
    ∧ cleanup_folder listdir_order OUTPUT_DIR fs4 = (fs', Ret ()).

(** The ratings of the merged file, genre by genre. *)
Definition ratings_by_genre : list (cell * list (option Q)) :=
  [ (CStr (Some "Action"), [Some 9.5; Some 7.5]%Q);
    (CStr (Some "Sci-Fi"), [Some 9.0; Some 8.8]%Q);
    (CStr (Some "War"), [Some 8.0]%Q) ].

(** * Properties *)

Section fetch.
Context (float_repr : Q → string).

Lemma DictWriter_movies :
  DictWriter float_repr (dict_keys (default [] (head movies_data))) movies_data = Ret movies_csv.
Proof. reflexivity. Qed.

Lemma DictWriter_ratings :
  DictWriter float_repr (dict_keys (default [] (head ratings_data))) ratings_data = Ret ratings_csv.
Proof. reflexivity. Qed.

End fetch.

(** ** The file system *)

Lemma dirname_join (d : path) (name : string) : dirname (os_path_join d name) = d.
Proof. apply removelast_last. Qed.

Lemma join_ne_dir (d : path) (name : string) : os_path_join d name ≠ d.
Proof.
  unfold os_path_join. intros H.
  apply (f_equal length) in H. rewrite length_app in H. simpl in H. lia.
Qed.

Lemma isdir_insert_file (fs : files) (q p : path) (c : content) :
  isdir (<[q := File c]> fs) p = if decide (q = p) then bool_decide (p = []) else isdir fs p.
Proof.
  unfold isdir. destruct p as [|x p].
  - by case_decide.
  - case_decide as Hq.
    + subst q. by rewrite lookup_insert_eq.
    + by rewrite lookup_insert_ne.
Qed.

Lemma open_error_insert (fs : files) (q p : path) (c : content) :
  q ≠ dirname p → q ≠ p → open_error (<[q := File c]> fs) p = open_error fs p.
Proof.
  intros Hd Hp. unfold open_error.
  rewrite !isdir_insert_file, !decide_False by done.
  by rewrite lookup_insert_ne.
Qed.

Lemma open_error_written (fs : files) (p : path) (c : content) :
  p ≠ dirname p → open_error fs p = None → open_error (<[p := File c]> fs) p = None.
Proof.
  intros Hd. unfold open_error.
  rewrite !isdir_insert_file, decide_False, decide_True by done.
  destruct (isdir fs (dirname p)); simpl; [|done].
  destruct p; [|done]. by destruct (isdir fs []).
Qed.

Lemma write_file_ok (fs : files) (p : path) (c : content) :
  open_error fs p = None → write_file p c fs = (<[p := File c]> fs, Ret ()).
Proof. unfold write_file. by intros ->. Qed.

Lemma write_file_fail (fs : files) (p : path) (c : content) (e : exn) :
  open_error fs p = Some e → write_file p c fs = (fs, Raise e).
Proof. unfold write_file. by intros ->. Qed.

Lemma read_csv_written (fs : files) (p : path) (df : DataFrame) :
  read_csv p (<[p := File (Csv df)]> fs) = Ret df.
Proof. unfold read_csv. by rewrite lookup_insert_eq. Qed.

Lemma bind_task {A B} (m : task A) (k : A → task B) (fs : files) :
  (m ≫= k) fs =
  match m fs with
  | (fs', Ret a) => k a fs'
  | (fs', Raise e) => (fs', Raise e)
  end.
Proof. reflexivity. Qed.

Section fetch_tasks.
Context (float_repr : Q → string).

Lemma write_dicts_movies (fs : files) (d : path) :
  let p := os_path_join d "movies.csv" in
  write_dicts float_repr p movies_data fs =
  match open_error fs p with
  | Some e => (fs, Raise e)
  | None => (<[p := File (Csv movies_csv)]> fs, Ret ())
  end.
Proof.
  intros p. unfold write_dicts. rewrite bind_task.
  destruct (open_error fs p) as [e|] eqn:He.
  - by rewrite (write_file_fail _ _ _ e).
  - rewrite write_file_ok by done. rewrite bind_task. unfold lift at 1.
    rewrite DictWriter_movies. rewrite write_file_ok.
    + by rewrite insert_insert_eq.
    + apply open_error_written; [|done]. unfold p. rewrite dirname_join. apply join_ne_dir.
Qed.

Lemma write_dicts_ratings (fs : files) (d : path) :
  let p := os_path_join d "ratings.csv" in
  write_dicts float_repr p ratings_data fs =
  match open_error fs p with
  | Some e => (fs, Raise e)
  | None => (<[p := File (Csv ratings_csv)]> fs, Ret ())
  end.
Proof.
  intros p. unfold write_dicts. rewrite bind_task.
  destruct (open_error fs p) as [e|] eqn:He.
  - by rewrite (write_file_fail _ _ _ e).
  - rewrite write_file_ok by done. rewrite bind_task. unfold lift at 1.
    rewrite DictWriter_ratings. rewrite write_file_ok.
    + by rewrite insert_insert_eq.
    + apply open_error_written; [|done]. unfold p. rewrite dirname_join. apply join_ne_dir.
Qed.

Lemma fetch_movies_spec (fs : files) (d : path) :
  let p := os_path_join d "movies.csv" in
  fetch_movies float_repr d fs =
  match open_error fs p with
  | Some e => (fs, Raise e)
  | None => (<[p := File (Csv movies_csv)]> fs, Ret p)
  end.
Proof.
  intros p. unfold fetch_movies. rewrite bind_task.
  fold p. unfold p. rewrite write_dicts_movies.
  by destruct (open_error _ _).
Qed.

Lemma fetch_ratings_spec (fs : files) (d : path) :
  let p := os_path_join d "ratings.csv" in
  fetch_ratings float_repr d fs =
  match open_error fs p with
  | Some e => (fs, Raise e)
  | None => (<[p := File (Csv ratings_csv)]> fs, Ret p)
  end.
Proof.
  intros p. unfold fetch_ratings. rewrite bind_task.
  fold p. unfold p. rewrite write_dicts_ratings.
  by destruct (open_error _ _).
Qed.

End fetch_tasks.

(** ** The fetch tasks *)

(** C10.  [fetch_movies] and [fetch_ratings] are functions of the state:
    whenever the file can be opened they leave at their path the same fixed
    five-row table, whatever the path held before, and they change nothing
    else; when it cannot be opened they change nothing.  Running either a
    second time gives the state and the result of the first run. *)
Theorem fetch_deterministic_idempotent (float_repr : Q → string) (d : path) (fs : files) :
  let pm := os_path_join d "movies.csv" in
  let pr := os_path_join d "ratings.csv" in
  fetch_movies float_repr d fs =
    match open_error fs pm with
    | Some e => (fs, Raise e)
    | None => (<[pm := File (Csv movies_csv)]> fs, Ret pm)
    end
  ∧ fetch_ratings float_repr d fs =
    match open_error fs pr with
    | Some e => (fs, Raise e)
    | None => (<[pr := File (Csv ratings_csv)]> fs, Ret pr)
    end
  ∧ fetch_movies float_repr d (fetch_movies float_repr d fs).1 = fetch_movies float_repr d fs
  ∧ fetch_ratings float_repr d (fetch_ratings float_repr d fs).1 = fetch_ratings float_repr d fs
  ∧ df_len movies_csv = 5 ∧ df_len ratings_csv = 5.
Proof.
  intros pm pr.
  assert (Hm : pm ≠ dirname pm) by (unfold pm; rewrite dirname_join; apply join_ne_dir).
  assert (Hr : pr ≠ dirname pr) by (unfold pr; rewrite dirname_join; apply join_ne_dir).
  split_and!; try reflexivity.
  - apply fetch_movies_spec.
  - apply fetch_ratings_spec.
  - rewrite (fetch_movies_spec float_repr fs d). fold pm.
    destruct (open_error fs pm) as [e|] eqn:He; simpl.
    + rewrite fetch_movies_spec. fold pm. by rewrite He.
    + rewrite fetch_movies_spec. fold pm.
      rewrite open_error_written by done. by rewrite insert_insert_eq.
  - rewrite (fetch_ratings_spec float_repr fs d). fold pr.
    destruct (open_error fs pr) as [e|] eqn:He; simpl.
    + rewrite fetch_ratings_spec. fold pr. by rewrite He.
    + rewrite fetch_ratings_spec. fold pr.
      rewrite open_error_written by done. by rewrite insert_insert_eq.
Qed.

(** ** Data frames *)

Lemma df_getitem_setitem (df : DataFrame) (name : string) (c : column) :
  df_getitem (df_setitem df name c) name = Ret c.
Proof.
  induction df as [|[n c'] df IH]; simpl.
  - by rewrite decide_True.
  - destruct (decide (n = name)) as [->|Hn]; simpl.
    + by rewrite decide_True.
    + by rewrite decide_False.
Qed.

Lemma df_getitem_setitem_ne (df : DataFrame) (name name' : string) (c : column) :
  name ≠ name' → df_getitem (df_setitem df name c) name' = df_getitem df name'.
Proof.
  intros Hne. induction df as [|[n c'] df IH]; simpl.
  - by rewrite decide_False.
  - destruct (decide (n = name)) as [->|Hn]; simpl.
    + by rewrite !decide_False.
    + by rewrite IH.
Qed.

Lemma df_setitem_new (df : DataFrame) (name : string) (c : column) :
  name ∉ df_columns df → df_setitem df name c = df ++ [(name, c)].
Proof.
  induction df as [|[n c'] df IH]; simpl; [done|].
  intros Hn. apply not_elem_of_cons in Hn as [Hne Hn].
  rewrite decide_False by done. by rewrite IH.
Qed.

Lemma df_setitem_columns_old (df : DataFrame) (name : string) (c : column) :
  name ∈ df_columns df → df_columns (df_setitem df name c) = df_columns df.
Proof.
  induction df as [|[n c'] df IH]; simpl.
  - by intros ?%elem_of_nil.
  - intros Hn. destruct (decide (n = name)) as [->|Hne]; simpl; [done|].
    apply elem_of_cons in Hn as [?|Hn]; [congruence|]. f_equal. by apply IH.
Qed.

Lemma col_cells_decade (year q : column) :
  is_object year = false →
  col_floordiv year 10 = Ret q → col_cells (col_mul q 10) = decade_of <$> col_cells year.
Proof.
  destruct year as [ys|ys|ys]; simpl; [| |done]; intros _ [= <-]; simpl.
  - rewrite <- !list_fmap_compose. done.
  - rewrite <- !list_fmap_compose. apply list_fmap_ext. intros _ [y|] _; done.
Qed.

(** ** The transformations *)

Lemma transform_movies_spec (mp : path) (fs : files) :
  let p := os_path_join OUTPUT_DIR "movies_transformed.csv" in
  transform_movies mp fs =
  match read_csv mp fs with
  | Raise e => (fs, Raise e)
  | Ret df =>
      match year ← df_getitem df "year"; q ← col_floordiv year 10; mret (col_mul q 10) with
      | Raise e => (fs, Raise e)
      | Ret decade =>
          match open_error fs p with
          | Some e => (fs, Raise e)
          | None => (<[p := File (Csv (df_setitem df "decade" decade))]> fs, Ret p)
          end
      end
  end.
Proof.
  intros p. unfold transform_movies. rewrite bind_task. unfold lift at 1.
  destruct (read_csv mp fs) as [df|e]; [|done].
  rewrite bind_task. unfold lift at 1.
  destruct (_ ≫= _) as [decade|e]; [|done].
  rewrite bind_task. unfold to_csv, write_file. fold p.
  by destruct (open_error fs p).
Qed.

Lemma transform_ratings_spec (rp : path) (fs : files) :
  let p := os_path_join OUTPUT_DIR "ratings_transformed.csv" in
  transform_ratings rp fs =
  match read_csv rp fs with
  | Raise e => (fs, Raise e)
  | Ret df =>
      match rating ← df_getitem df "rating"; cut rating rating_bins rating_labels with
      | Raise e => (fs, Raise e)
      | Ret category =>
          match open_error fs p with
          | Some e => (fs, Raise e)
          | None => (<[p := File (Csv (df_setitem df "rating_category" category))]> fs, Ret p)
          end
      end
  end.
Proof.
  intros p. unfold transform_ratings. rewrite bind_task. unfold lift at 1.
  destruct (read_csv rp fs) as [df|e]; [|done].
  rewrite bind_task. unfold lift at 1.
  destruct (_ ≫= _) as [category|e]; [|done].
  rewrite bind_task. unfold to_csv, write_file. fold p.
  by destruct (open_error fs p).
Qed.

Lemma wrap64_id (z : Z) : (INT64_MIN ≤ z ≤ INT64_MAX)%Z → wrap64 z = z.
Proof.
  unfold wrap64, INT64_MIN, INT64_MAX. intros Hz.
  rewrite Z.mod_small by lia. lia.
Qed.




Lemma Qlt_bool_iff (x y : Q) : Qlt_bool x y = true ↔ (x < y)%Q.
Proof.
  unfold Qlt_bool. rewrite negb_true_iff, <- not_true_iff_false, Qle_bool_iff.
  split; [apply Qnot_le_lt | apply Qlt_not_le].
Qed.

Lemma cut_value_rating (r : Q) :
  ((0 < r ∧ r <= 7)%Q → cut_value rating_bins rating_labels r = Some "Low")
  ∧ ((7 < r ∧ r <= 8.5)%Q → cut_value rating_bins rating_labels r = Some "Medium")
  ∧ ((8.5 < r ∧ r <= 10)%Q → cut_value rating_bins rating_labels r = Some "High")
  ∧ ((r <= 0 ∨ 10 < r)%Q → cut_value rating_bins rating_labels r = None).
Proof.
  unfold rating_bins, rating_labels, cut_value.
  destruct (Qlt_bool 0 r) eqn:H0; destruct (Qle_bool r 7) eqn:H7;
  destruct (Qlt_bool 7 r) eqn:H7'; destruct (Qle_bool r 8.5) eqn:H85;
  destruct (Qlt_bool 8.5 r) eqn:H85'; destruct (Qle_bool r 10) eqn:H10; simpl;
  repeat match goal with
  | H : Qlt_bool _ _ = true |- _ => apply Qlt_bool_iff in H
  | H : Qle_bool _ _ = true |- _ => apply Qle_bool_iff in H
  | H : Qlt_bool _ _ = false |- _ => apply not_true_iff_false in H; rewrite Qlt_bool_iff in H
  | H : Qle_bool _ _ = false |- _ => apply not_true_iff_false in H; rewrite Qle_bool_iff in H
  end;
  split_and!; intros; try reflexivity; exfalso; lra.
Qed.

Lemma cut_cells (rating category : column) (i : nat) (x : cell) :
  is_object rating = false →
  cut rating rating_bins rating_labels = Ret category →
  col_cells rating !! i = Some x →
  col_cells category !! i = Some (CStr (cell_float x ≫= cut_value rating_bins rating_labels)).
Proof.
  destruct rating as [xs|xs|xs]; simpl; [| |done]; intros _ [= <-]; simpl;
    rewrite !list_lookup_fmap; destruct (xs !! i) as [y|]; simpl; intros [= <-]; done.
Qed.

(** C8.  On a CSV with a numeric rating column [transform_ratings] raises
    nothing and writes, for every rating [r], the category of the
    right-closed bucket [r] falls in: Low for [0 < r <= 7], Medium for
    [7 < r <= 8.5], High for [8.5 < r <= 10], and the missing value for
    [r <= 0] or [r > 10]. *)
Theorem transform_ratings_buckets (rp : path) (fs : files) (df : DataFrame) (rating : column) :
  let p := os_path_join OUTPUT_DIR "ratings_transformed.csv" in
  read_csv rp fs = Ret df →
  df_getitem df "rating" = Ret rating →
  is_object rating = false →
  open_error fs p = None →
  ∃ out,
    transform_ratings rp fs = (<[p := File (Csv out)]> fs, Ret p)
    ∧ ∀ i x r, col_cells rating !! i = Some x → cell_float x = Some r →
        ∃ cat, df_cell out "rating_category" i = Some (CStr cat)
          ∧ ((0 < r ∧ r <= 7)%Q → cat = Some "Low")
          ∧ ((7 < r ∧ r <= 8.5)%Q → cat = Some "Medium")
          ∧ ((8.5 < r ∧ r <= 10)%Q → cat = Some "High")
          ∧ ((r <= 0 ∨ 10 < r)%Q → cat = None).
Proof.
  intros p Hread Hrating Hnum Hopen.
  destruct (cut rating rating_bins rating_labels) as [category|e] eqn:Hcut; [|by destruct rating].
  exists (df_setitem df "rating_category" category). split.
  - rewrite transform_ratings_spec, Hread, Hrating. simpl. rewrite Hcut.
    fold p. by rewrite Hopen.
  - intros i x r Hi Hr. exists (cut_value rating_bins rating_labels r).
    split; [|apply cut_value_rating].
    unfold df_cell. rewrite df_getitem_setitem.
    rewrite (cut_cells _ _ _ _ Hnum Hcut Hi), Hr. done.
Qed.

Lemma transform_ratings_buckets_witness :
  ∃ out,
    transform_ratings (os_path_join OUTPUT_DIR "ratings.csv")
      (<[os_path_join OUTPUT_DIR "ratings.csv" := File (Csv ratings_csv)]> fresh_fs)
    = (<[os_path_join OUTPUT_DIR "ratings_transformed.csv" := File (Csv out)]>
         (<[os_path_join OUTPUT_DIR "ratings.csv" := File (Csv ratings_csv)]> fresh_fs),
       Ret (os_path_join OUTPUT_DIR "ratings_transformed.csv"))
    ∧ ∀ i x r,
        col_cells (FloatCol [Some 9.0; Some 9.5; Some 8.8; Some 7.5; Some 8.0]%Q) !! i = Some x →
        cell_float x = Some r →
        ∃ cat, df_cell out "rating_category" i = Some (CStr cat)
          ∧ ((0 < r ∧ r <= 7)%Q → cat = Some "Low")
          ∧ ((7 < r ∧ r <= 8.5)%Q → cat = Some "Medium")
          ∧ ((8.5 < r ∧ r <= 10)%Q → cat = Some "High")
          ∧ ((r <= 0 ∨ 10 < r)%Q → cat = None).
Proof.
  apply (transform_ratings_buckets (os_path_join OUTPUT_DIR "ratings.csv")
           (<[os_path_join OUTPUT_DIR "ratings.csv" := File (Csv ratings_csv)]> fresh_fs)
           ratings_csv (FloatCol [Some 9.0; Some 9.5; Some 8.8; Some 7.5; Some 8.0]%Q)).
  - vm_compute. reflexivity.
  - reflexivity.
  - reflexivity.
  - vm_compute. reflexivity.
Defined.

(** ** The two branches *)

Section branches.
Context (float_repr : Q → string).

Let pm := os_path_join OUTPUT_DIR "movies.csv".
Let pmt := os_path_join OUTPUT_DIR "movies_transformed.csv".
Let pr := os_path_join OUTPUT_DIR "ratings.csv".
Let prt := os_path_join OUTPUT_DIR "ratings_transformed.csv".

Lemma movies_branch_spec (fs : files) :
  movies_branch float_repr fs =
  match open_error fs pm with
  | Some e => (fs, Raise e)
  | None =>
      match open_error fs pmt with
      | Some e => (<[pm := File (Csv movies_csv)]> fs, Raise e)
      | None =>
          (<[pmt := File (Csv movies_transformed_csv)]> (<[pm := File (Csv movies_csv)]> fs),
           Ret pmt)
      end
  end.
Proof.
  unfold movies_branch. rewrite bind_task, fetch_movies_spec. fold pm.
  destruct (open_error fs pm) as [e|] eqn:Hm; [done|].
  rewrite transform_movies_spec, read_csv_written. fold pmt.
  rewrite open_error_insert by done.
  destruct (open_error fs pmt); reflexivity.
Qed.

Lemma ratings_branch_spec (fs : files) :
  ratings_branch float_repr fs =
  match open_error fs pr with
  | Some e => (fs, Raise e)
  | None =>
      match open_error fs prt with
      | Some e => (<[pr := File (Csv ratings_csv)]> fs, Raise e)
      | None =>
          (<[prt := File (Csv ratings_transformed_csv)]> (<[pr := File (Csv ratings_csv)]> fs),
           Ret prt)
      end
  end.
Proof.
  unfold ratings_branch. rewrite bind_task, fetch_ratings_spec. fold pr.
  destruct (open_error fs pr) as [e|] eqn:Hr; [done|].
  rewrite transform_ratings_spec, read_csv_written. fold prt.
  rewrite open_error_insert by done.
  destruct (open_error fs prt); reflexivity.
Qed.

(** C6.  Each branch changes only its own two files, and running the
    ratings branch after the movies branch leaves the same files, with the
    same results of both branches, as running them the other way round. *)
Theorem branches_commute (fs : files) :
  let movies := movies_branch float_repr in
  let ratings := ratings_branch float_repr in
  (ratings (movies fs).1).1 = (movies (ratings fs).1).1
  ∧ (movies (ratings fs).1).2 = (movies fs).2
  ∧ (ratings (movies fs).1).2 = (ratings fs).2
  ∧ (∀ q, q ∉ [pm; pmt] → (movies fs).1 !! q = fs !! q)
  ∧ (∀ q, q ∉ [pr; prt] → (ratings fs).1 !! q = fs !! q).
Proof.
  intros movies ratings. unfold movies, ratings.
  split_and!.
  - rewrite (movies_branch_spec fs), (ratings_branch_spec fs).
    destruct (open_error fs pm) as [em|] eqn:Hm;
    destruct (open_error fs pmt) as [emt|] eqn:Hmt;
    destruct (open_error fs pr) as [er|] eqn:Hr;
    destruct (open_error fs prt) as [ert|] eqn:Hrt; simpl;
    rewrite ?movies_branch_spec, ?ratings_branch_spec;
    rewrite ?open_error_insert by done;
    rewrite ?Hm, ?Hmt, ?Hr, ?Hrt; simpl; try done.
    all: repeat (rewrite (insert_insert_ne _ pr) by done);
         repeat (rewrite (insert_insert_ne _ prt) by done); done.
  - rewrite (ratings_branch_spec fs), (movies_branch_spec fs).
    destruct (open_error fs pr) as [er|] eqn:Hr;
    destruct (open_error fs prt) as [ert|] eqn:Hrt; simpl;
    rewrite ?movies_branch_spec; rewrite ?open_error_insert by done;
    destruct (open_error fs pm); try done; destruct (open_error fs pmt); done.
  - rewrite (ratings_branch_spec fs), (movies_branch_spec fs).
    destruct (open_error fs pm) as [em|] eqn:Hm;
    destruct (open_error fs pmt) as [emt|] eqn:Hmt; simpl;
    rewrite ?ratings_branch_spec; rewrite ?open_error_insert by done;
    destruct (open_error fs pr); try done; destruct (open_error fs prt); done.
  - intros q Hq. apply not_elem_of_cons in Hq as [Hq1 Hq]. apply not_elem_of_cons in Hq as [Hq2 _].
    rewrite movies_branch_spec.
    destruct (open_error fs pm); [done|]. destruct (open_error fs pmt); simpl;
      rewrite ?lookup_insert_ne by done; done.
  - intros q Hq. apply not_elem_of_cons in Hq as [Hq1 Hq]. apply not_elem_of_cons in Hq as [Hq2 _].
    rewrite ratings_branch_spec.
    destruct (open_error fs pr); [done|]. destruct (open_error fs prt); simpl;
      rewrite ?lookup_insert_ne by done; done.
Qed.

End branches.

(** ** Cleanup *)

Lemma elem_of_entries (d : path) (fs : files) (name : string) :
  name ∈ entries d fs ↔ is_Some (fs !! os_path_join d name).
Proof.
  unfold entries. rewrite list_elem_of_omap. split.
  - intros (p & Hp & Hf). case_decide as Hd; [|done].
    apply last_Some in Hf as [l' ->]. unfold dirname in Hd. rewrite removelast_last in Hd. subst l'.
    apply list_elem_of_fmap in Hp as ([p x] & Heq & Hp). simpl in Heq. subst p.
    apply elem_of_map_to_list in Hp. by exists x.
  - intros [x Hx]. exists (os_path_join d name). split.
    + apply list_elem_of_fmap. exists (os_path_join d name, x). split; [done|].
      by apply elem_of_map_to_list.
    + rewrite dirname_join, decide_True by done. apply last_snoc.
Qed.

Lemma NoDup_entries (d : path) (fs : files) : NoDup (entries d fs).
Proof.
  unfold entries. pose proof (NoDup_fst_map_to_list fs) as Hnd.
  induction Hnd as [|p ps Hp Hnd IH]; simpl; [constructor|].
  case_decide as Hd; [|done].
  destruct (last p) as [name|] eqn:Hl; [|done].
  constructor; [|done].
  intros (q & Hq & Hf)%list_elem_of_omap. case_decide as Hd'; [|done].
  apply last_Some in Hl as [l1 ->]. apply last_Some in Hf as [l2 ->].
  unfold dirname in Hd, Hd'. rewrite removelast_last in Hd, Hd'. by subst.
Qed.

Lemma isdir_join (fs : files) (d : path) (name : string) :
  isdir fs (os_path_join d name) = match fs !! os_path_join d name with Some Dir => true | _ => false end.
Proof. unfold isdir, os_path_join. by destruct d. Qed.

Section cleanup.
Context (listdir_order : list string → list string).
Context (folder : path).

Let body := λ file : string,
  if endswith file ".csv" then os_remove (os_path_join folder file) else mret ().

Lemma cleanup_loop (names : list string) (fs : files) :
  NoDup names →
  (∀ name, name ∈ names → endswith name ".csv" = true →
     ∃ c, fs !! os_path_join folder name = Some (File c)) →
  ∃ fs', for_each names body fs = (fs', Ret ())
    ∧ (∀ name, name ∈ names → endswith name ".csv" = true →
         fs' !! os_path_join folder name = None)
    ∧ (∀ q, (∀ name, name ∈ names → endswith name ".csv" = true →
               q ≠ os_path_join folder name) →
         fs' !! q = fs !! q).
Proof.
  intros Hnd. revert fs. induction Hnd as [|n ns Hn Hnd IH]; intros fs Hfiles.
  - exists fs. split; [done|]. split; [|done]. by intros name ?%elem_of_nil.
  - simpl. rewrite bind_task. unfold body at 1.
    destruct (endswith n ".csv") eqn:Hcsv.
    + destruct (Hfiles n) as [c Hc]; [left|done|].
      unfold os_remove at 1. rewrite Hc.
      destruct (IH (delete (os_path_join folder n) fs)) as (fs' & Hrun & Hgone & Hkept).
      { intros name Hin Hname. destruct (Hfiles name) as [c' Hc']; [by right|done|].
        exists c'. rewrite lookup_delete_ne; [done|].
        intros Heq. apply app_inj_tail in Heq as [_ ->]. done. }
      exists fs'. split; [done|]. split.
      * intros name [->|Hin]%elem_of_cons Hname; [|by apply Hgone].
        rewrite Hkept; [apply lookup_delete_eq|].
        intros name Hin _ Heq. apply app_inj_tail in Heq as [_ ->]. done.
      * intros q Hq. rewrite Hkept.
        -- apply lookup_delete_ne. intros <-. exact (Hq n ltac:(left) Hcsv eq_refl).
        -- intros name Hin. apply Hq. by right.
    + destruct (IH fs) as (fs' & Hrun & Hgone & Hkept).
      { intros name Hin Hname. apply Hfiles; [by right|done]. }
      exists fs'. split; [done|]. split.
      * intros name [->|Hin]%elem_of_cons Hname; [congruence|by apply Hgone].
      * intros q Hq. apply Hkept. intros name Hin. apply Hq. by right.
Qed.

(** C3 (amended).  When the folder exists and none of its subdirectories has
    a name ending in [.csv], [cleanup_folder] raises nothing, removes every
    file directly inside the folder whose name ends in [.csv], and changes
    nothing else, in whatever order the entries are listed; in particular
    all that lies in a subdirectory (the chart under [visuals]) stays. *)
Theorem cleanup_folder_removes_csv (fs : files) :
  (∀ l, listdir_order l ≡ₚ l) →
  isdir fs folder = true →
  no_csv_subdir folder fs = true →
  ∃ fs', cleanup_folder listdir_order folder fs = (fs', Ret ())
    ∧ cleaned folder fs fs'
    ∧ ∀ sub name, fs' !! os_path_join (os_path_join folder sub) name
                  = fs !! os_path_join (os_path_join folder sub) name.
Proof.
  intros Hperm Hdir Hnone.
  assert (Hnodir : ∀ name, fs !! os_path_join folder name = Some Dir →
                           endswith name ".csv" = false).
  { intros name Hx. unfold no_csv_subdir in Hnone. rewrite forallb_forall in Hnone.
    specialize (Hnone name). rewrite <- list_elem_of_In, elem_of_entries in Hnone.
    specialize (Hnone ltac:(by eexists)). rewrite isdir_join, Hx in Hnone.
    by destruct (endswith name ".csv"). }
  destruct (cleanup_loop (listdir_order (entries folder fs)) fs) as (fs' & Hrun & Hgone & Hkept).
  { rewrite Hperm. apply NoDup_entries. }
  { intros name Hin Hcsv. rewrite Hperm in Hin. apply elem_of_entries in Hin as [[|c] Hx].
    - apply Hnodir in Hx. congruence.
    - by exists c. }
  exists fs'. split_and!.
  - unfold cleanup_folder. rewrite bind_task. unfold lift, os_listdir. rewrite Hdir. exact Hrun.
  - intros q. split.
    + intros (name & c & -> & Hcsv & Hc). apply Hgone; [|done].
      rewrite Hperm. apply elem_of_entries. by eexists.
    + intros Hq. apply Hkept. intros name Hin Hcsv ->. rewrite Hperm in Hin.
      apply elem_of_entries in Hin as [[|c] Hx].
      * apply Hnodir in Hx. congruence.
      * destruct Hq. by exists name, c.
  - intros sub name. apply Hkept.
    intros name' _ _ Heq. unfold os_path_join in Heq.
    apply app_inj_tail in Heq as [Heq _]. by apply join_ne_dir in Heq.
Qed.

End cleanup.

Lemma cleanup_folder_removes_csv_witness :
  ∃ fs', cleanup_folder id OUTPUT_DIR fs_with_chart = (fs', Ret ())
    ∧ cleaned OUTPUT_DIR fs_with_chart fs'
    ∧ ∀ sub name, fs' !! os_path_join (os_path_join OUTPUT_DIR sub) name
                  = fs_with_chart !! os_path_join (os_path_join OUTPUT_DIR sub) name.
Proof.
  apply (cleanup_folder_removes_csv id OUTPUT_DIR fs_with_chart).
  - intros l. reflexivity.
  - vm_compute. reflexivity.
  - vm_compute. reflexivity.
Defined.

(** C3 as stated fails when the folder holds a directory whose name ends in
    [.csv]: [os.remove] raises on the directory, in either order of the
    listing, and when the listing reports the directory before a CSV file
    that file stays. *)
Lemma cleanup_folder_removes_csv_counterexample :
  (cleanup_folder id OUTPUT_DIR fs_with_csv_dir).2 = Raise IsADirectoryError
  ∧ (cleanup_folder reverse OUTPUT_DIR fs_with_csv_dir).2 = Raise IsADirectoryError
  ∧ ¬ cleaned OUTPUT_DIR fs_with_csv_dir (cleanup_folder reverse OUTPUT_DIR fs_with_csv_dir).1.
Proof.
  split; [vm_compute; reflexivity|]. split; [vm_compute; reflexivity|].
  intros Hclean. destruct (Hclean (os_path_join OUTPUT_DIR "movies.csv")) as [Hgone _].
  assert (Hstays : (cleanup_folder reverse OUTPUT_DIR fs_with_csv_dir).1
                     !! os_path_join OUTPUT_DIR "movies.csv" = Some (File (Csv movies_csv)))
    by (vm_compute; reflexivity).
  rewrite Hgone in Hstays; [discriminate|].
  exists "movies.csv", (Csv movies_csv). split_and!; vm_compute; reflexivity.
Qed.

(** ** The order of the tasks *)

Lemma sched_run_app (s : sched) (es1 es2 : list event) :
  sched_run s (es1 ++ es2) = sched_run s es1 ≫= λ s1, sched_run s1 es2.
Proof.
  revert s. induction es1 as [|e es1 IH]; intros s; simpl; [done|].
  destruct (sched_step s e) as [s'|]; simpl; [apply IH|done].
Qed.

Lemma sched_step_inv (pre : list event) (s s' : sched) (e : event) :
  sched_inv pre s → sched_step s e = Some s' → sched_inv (pre ++ [e]) s'.
Proof.
  intros [Hsucc Hup] Hstep. destruct e as [t|t|t]; simpl in Hstep;
    case_bool_decide as Hok; [|done| |done| |done]; injection Hstep as <-; simpl.
  - destruct Hok as (_ & _ & Hall). rewrite Forall_forall in Hall. split.
    + intros t' Ht'. apply elem_of_app. left. by apply Hsucc.
    + intros t' [[->|Ht']%elem_of_cons|Ht'] u Hu;
        [by apply Hall|apply (Hup t'); [by left|done]|apply (Hup t'); [by right|done]].
  - split.
    + intros t' [->|Ht']%elem_of_cons; apply elem_of_app; [right; by left|left; by apply Hsucc].
    + intros t' Ht' u Hu. right.
      destruct Ht' as [[_ Ht']%list_elem_of_filter|[->|Ht']%elem_of_cons];
        [apply (Hup t'); [by left|done]|apply (Hup t); [by left|done]|apply (Hup t'); [by right|done]].
  - split.
    + intros t' Ht'. apply elem_of_app. left. by apply Hsucc.
    + intros t' [[_ Ht']%list_elem_of_filter|Ht'] u Hu;
        [apply (Hup t'); [by left|done]|apply (Hup t'); [by right|done]].
Qed.

Lemma sched_run_inv (es : list event) (s : sched) :
  sched_run sched_init es = Some s → sched_inv es s.
Proof.
  revert s. induction es as [|e es IH] using rev_ind; intros s.
  - intros [= <-]. split; simpl; [by intros t ?%elem_of_nil|].
    intros t [?%elem_of_nil|?%elem_of_nil]; done.
  - rewrite sched_run_app. destruct (sched_run sched_init es) as [s1|]; simpl; [|done].
    destruct (sched_step s1 e) as [s2|] eqn:Hstep; simpl; [|done].
    intros [= <-]. eapply sched_step_inv; eauto.
Qed.

Lemma upstream_within_succeeded (pre : list event) (s : sched) (n : nat) (t u : task_id) :
  sched_inv pre s →
  (∀ v, v ∈ upstream t → v ∈ succeeded s) →
  u ∈ upstream_within n t → u ∈ succeeded s.
Proof.
  intros [_ Hup]. revert t. induction n as [|n IH]; intros t Ht; simpl.
  - by intros ?%elem_of_nil.
  - intros [Hu|Hu]%elem_of_app; [by apply Ht|].
    apply list_elem_of_bind in Hu as (v & Hu & Hv).
    apply (IH v); [|done]. intros w Hw. apply (Hup v); [right; by apply Ht|done].
Qed.

(** C5.  In every run of the DAG a task is started only after all tasks
    upstream of it, directly or through other tasks, have succeeded.  The
    upstream tasks make the fixed sequence fetch, transform, merge, load,
    visualize, cleanup: merge waits for both transforms (and each transform
    for its fetch), and cleanup waits for [load_to_postgres] and
    [analyze_and_visualize]. *)
Theorem dag_order (es pre post : list event) (s : sched) (t u : task_id) :
  sched_run sched_init es = Some s →
  es = pre ++ Start t :: post →
  u ∈ all_upstream t →
  Succeed u ∈ pre
  ∧ all_upstream t_transform_movies = [t_fetch_movies]
  ∧ all_upstream t_transform_ratings = [t_fetch_ratings]
  ∧ [t_transform_movies; t_transform_ratings] ⊆ all_upstream t_merge_datasets
  ∧ [t_merge_datasets] ⊆ all_upstream t_load_to_postgres
  ∧ [t_merge_datasets; t_load_to_postgres] ⊆ all_upstream t_analyze_and_visualize
  ∧ [t_merge_datasets; t_load_to_postgres; t_analyze_and_visualize] ⊆ all_upstream t_cleanup_folder.
Proof.
  intros Hrun -> Hu. split.
  - rewrite sched_run_app in Hrun.
    destruct (sched_run sched_init pre) as [s1|] eqn:Hpre; [|by simpl in Hrun].
    change (sched_step s1 (Start t) ≫= (λ s', sched_run s' post) = Some s) in Hrun.
    destruct (sched_step s1 (Start t)) as [s2|] eqn:Hstep; [|by simpl in Hrun].
    pose proof (sched_run_inv _ _ Hpre) as Hinv.
    simpl in Hstep. case_bool_decide as Hok; [|done].
    destruct Hok as (_ & _ & Hall). rewrite Forall_forall in Hall.
    destruct Hinv as [Hsucc Hup]. apply Hsucc.
    eapply upstream_within_succeeded; [by split|exact Hall|exact Hu].
  - split_and!; try reflexivity; apply (bool_decide_unpack _); vm_compute; exact I.
Qed.

Lemma dag_order_witness :
  Succeed t_load_to_postgres
    ∈ take 14 sequential_run
  ∧ all_upstream t_transform_movies = [t_fetch_movies]
  ∧ all_upstream t_transform_ratings = [t_fetch_ratings]
  ∧ [t_transform_movies; t_transform_ratings] ⊆ all_upstream t_merge_datasets
  ∧ [t_merge_datasets] ⊆ all_upstream t_load_to_postgres
  ∧ [t_merge_datasets; t_load_to_postgres] ⊆ all_upstream t_analyze_and_visualize
  ∧ [t_merge_datasets; t_load_to_postgres; t_analyze_and_visualize] ⊆ all_upstream t_cleanup_folder.
Proof.
  apply (dag_order sequential_run (take 14 sequential_run) [Succeed t_cleanup_folder]
           (Sched [] [t_cleanup_folder; t_analyze_and_visualize; t_load_to_postgres;
                      t_merge_datasets; t_transform_ratings; t_transform_movies;
                      t_fetch_ratings; t_fetch_movies])
           t_cleanup_folder t_load_to_postgres).
  - vm_compute. reflexivity.
  - vm_compute. reflexivity.
  - apply (bool_decide_unpack _). vm_compute. exact I.
Defined.

(** ** The merge *)

Lemma series_take_fmap {A B} (f : A → B) (idx : list nat) (xs : list A) :
  series_take idx (f <$> xs) = f <$> series_take idx xs.
Proof.
  unfold series_take. induction idx as [|i idx IH]; csimpl; [done|].
  rewrite list_lookup_fmap. destruct (xs !! i); csimpl; by rewrite IH.
Qed.

Lemma col_cells_take (idx : list nat) (c : column) :
  col_cells (col_take idx c) = series_take idx (col_cells c).
Proof. destruct c; simpl; by rewrite series_take_fmap. Qed.

Lemma series_take_lookup {A} (idx : list nat) (xs : list A) (k : nat) :
  Forall (λ i, i < length xs) idx →
  series_take idx xs !! k = idx !! k ≫= λ i, xs !! i.
Proof.
  unfold series_take. intros Hidx. revert k. induction Hidx as [|i idx Hi Hidx IH]; intros k; csimpl.
  - done.
  - apply lookup_lt_is_Some_2 in Hi as [x Hx]. rewrite Hx. destruct k; csimpl; [done|apply IH].
Qed.

Lemma series_take_length {A} (idx : list nat) (xs : list A) :
  Forall (λ i, i < length xs) idx → length (series_take idx xs) = length idx.
Proof.
  unfold series_take. induction 1 as [|i idx Hi Hidx IH]; csimpl; [done|].
  apply lookup_lt_is_Some_2 in Hi as [x Hx]. rewrite Hx. csimpl. by rewrite IH.
Qed.

Lemma elem_of_join_pairs (lk rk : list cell) (i j : nat) :
  (i, j) ∈ join_pairs lk rk ↔
  ∃ a b, lk !! i = Some a ∧ rk !! j = Some b ∧ key_eqb a b = true.
Proof.
  unfold join_pairs. rewrite list_elem_of_bind. split.
  - intros (i' & Hij & _). apply list_elem_of_bind in Hij as (j' & Hij & _).
    destruct (lk !! i') as [a|] eqn:Ha; [|by apply elem_of_nil in Hij].
    destruct (rk !! j') as [b|] eqn:Hb; [|by apply elem_of_nil in Hij].
    destruct (key_eqb a b) eqn:Hab; [|by apply elem_of_nil in Hij].
    apply list_elem_of_singleton in Hij as [= -> ->]. by exists a, b.
  - intros (a & b & Ha & Hb & Hab). exists i. split.
    + apply list_elem_of_bind. exists j. split.
      * rewrite Ha, Hb, Hab. by apply list_elem_of_singleton.
      * apply elem_of_seq. apply lookup_lt_Some in Hb. lia.
    + apply elem_of_seq. apply lookup_lt_Some in Ha. lia.
Qed.

Lemma join_pairs_bounds (lk rk : list cell) :
  Forall (λ i, i < length lk) (join_pairs lk rk).*1
  ∧ Forall (λ j, j < length rk) (join_pairs lk rk).*2.
Proof.
  split; apply Forall_forall; intros x Hx;
    apply list_elem_of_fmap in Hx as ([i j] & -> & Hij);
    apply elem_of_join_pairs in Hij as (a & b & Ha & Hb & _); simpl;
    by eapply lookup_lt_Some.
Qed.

Lemma df_row_take (rename : string → string) (df : DataFrame) (idx : list nat) (k i : nat) :
  (∀ n c, (n, c) ∈ df → Forall (λ i, i < col_len c) idx) →
  idx !! k = Some i →
  df_row ((λ '(n, c), (rename n, col_take idx c)) <$> df) k = df_row df i.
Proof.
  intros Hin Hk. unfold df_row. induction df as [|[n c] df IH]; csimpl; [done|].
  rewrite col_cells_take, series_take_lookup, Hk by (apply (Hin n c); left). csimpl.
  rewrite IH; [done|]. intros n' c' Hc'. apply (Hin n' c'). by right.
Qed.

Lemma df_row_app (df1 df2 : DataFrame) (i : nat) :
  df_row (df1 ++ df2) i = df_row df1 i ++ df_row df2 i.
Proof. unfold df_row. apply omap_app. Qed.

Lemma df_getitem_elem_of (df : DataFrame) (name : string) (c : column) :
  df_getitem df name = Ret c → (name, c) ∈ df.
Proof.
  induction df as [|[n c'] df IH]; simpl; [done|].
  case_decide as Hn; [intros [= ->]; subst; left|right; by apply IH].
Qed.

Lemma df_columns_drop (df : DataFrame) (name : string) :
  df_columns (drop_column df name) = filter (λ n, n ≠ name) (df_columns df).
Proof.
  unfold df_columns, drop_column. induction df as [|[n c] df IH]; [done|].
  rewrite filter_cons. csimpl. rewrite filter_cons.
  destruct (decide (n ≠ name)); csimpl; [f_equal|]; apply IH.
Qed.

Lemma df_columns_map_cols (f : string → string) (g : column → column) (df : DataFrame) :
  df_columns ((λ '(n, c), (f n, g c)) <$> df) = f <$> df_columns df.
Proof.
  unfold df_columns. rewrite <- !list_fmap_compose. apply list_fmap_ext. by intros _ [n c] _.
Qed.

Lemma pd_merge_spec (dfm dfr : DataFrame) (on : string) (km kr : column) :
  df_getitem dfm on = Ret km → df_getitem dfr on = Ret kr →
  is_object km = is_object kr →
  NoDup (merged_columns on dfm dfr) →
  pd_merge dfm dfr on =
  Ret (((λ '(n, c), (suffix_left on dfr n,
                     col_take (join_pairs (col_cells km) (col_cells kr)).*1 c)) <$> dfm)
       ++ ((λ '(n, c), (suffix_right dfm n,
                        col_take (join_pairs (col_cells km) (col_cells kr)).*2 c))
             <$> drop_column dfr on)).
Proof.
  intros Hkm Hkr Hobj Hnd.
  unfold pd_merge. rewrite Hkm, Hkr. simpl. rewrite Hobj, Bool.eqb_reflx. simpl.
  fold (drop_column dfr on). rewrite bool_decide_eq_true_2; [done|].
  unfold df_columns at 1. rewrite fmap_app.
  change (NoDup (df_columns ((λ '(n, c), (suffix_left on dfr n,
            col_take (join_pairs (col_cells km) (col_cells kr)).*1 c)) <$> dfm)
          ++ df_columns ((λ '(n, c), (suffix_right dfm n,
            col_take (join_pairs (col_cells km) (col_cells kr)).*2 c)) <$> drop_column dfr on))).
  by rewrite !df_columns_map_cols.
Qed.

Lemma merge_datasets_spec (mp rp : path) (fs : files) :
  let p := os_path_join OUTPUT_DIR "merged_movies.csv" in
  merge_datasets mp rp fs =
  match read_csv mp fs with
  | Raise e => (fs, Raise e)
  | Ret df_movies =>
      match read_csv rp fs with
      | Raise e => (fs, Raise e)
      | Ret df_ratings =>
          match pd_merge df_movies df_ratings "movie_id" with
          | Raise e => (fs, Raise e)
          | Ret merged =>
              match open_error fs p with
              | Some e => (fs, Raise e)
              | None => (<[p := File (Csv merged)]> fs, Ret p)
              end
          end
      end
  end.
Proof.
  intros p. unfold merge_datasets. rewrite bind_task. unfold lift at 1.
  destruct (read_csv mp fs) as [dfm|e]; [|done].
  rewrite bind_task. unfold lift at 1.
  destruct (read_csv rp fs) as [dfr|e]; [|done].
  rewrite bind_task. unfold lift at 1.
  destruct (pd_merge _ _ _) as [merged|e]; [|done].
  rewrite bind_task. unfold to_csv, write_file. fold p.
  by destruct (open_error fs p).
Qed.

Lemma df_wf_col_len (df : DataFrame) (n : string) (c : column) :
  df_wf df → (n, c) ∈ df → col_len c = df_len df.
Proof. intros (_ & _ & Hlen) Hc. rewrite Forall_forall in Hlen. apply (Hlen (n, c) Hc). Qed.



(** ** Grouping *)

Lemma key_eqb_refl (a : cell) : key_eqb a a = true.
Proof.
  destruct a as [x|[x|]|x]; simpl; try done; try by apply bool_decide_eq_true_2.
  by apply Qeq_bool_iff.
Qed.

Lemma key_eqb_sym (a b : cell) : key_eqb a b = key_eqb b a.
Proof.
  destruct a as [x|[x|]|x], b as [y|[y|]|y]; simpl; try done;
    try (apply bool_decide_ext; split; congruence);
    apply Bool.eq_iff_eq_true; rewrite !Qeq_bool_iff; split; intros H; by symmetry.
Qed.

Lemma key_eqb_trans (a b c : cell) :
  key_eqb a b = true → key_eqb b c = true → key_eqb a c = true.
Proof.
  destruct a as [x|[x|]|x], b as [y|[y|]|y], c as [z|[z|]|z]; simpl; try done;
    rewrite ?bool_decide_eq_true, ?Qeq_bool_iff; try congruence; intros H1 H2; subst;
    try done; try (by etransitivity; eauto).
  apply inject_Z_injective. by etransitivity; eauto.
Qed.

Lemma key_eqb_false_l (a b c : cell) :
  key_eqb a b = true → key_eqb a c = false → key_eqb b c = false.
Proof.
  intros Hab Hac. destruct (key_eqb b c) eqn:Hbc; [|done].
  by rewrite (key_eqb_trans a b c) in Hac.
Qed.

Lemma elem_of_group_add (k : cell) (v : option Q) (gs : list (cell * list (option Q)))
    (k2 : cell) (vs2 : list (option Q)) :
  groups_distinct gs →
  (k2, vs2) ∈ group_add k v gs ↔
  (∃ vs, (k2, vs) ∈ gs ∧ vs2 = vs ++ (if key_eqb k k2 then [v] else []))
  ∨ ((k2, vs2) = (k, [v]) ∧ ∀ g, g ∈ gs → key_eqb k g.1 = false).
Proof.
  induction gs as [|[k' vs'] gs IH]; simpl.
  - intros _. rewrite list_elem_of_singleton. split.
    + intros ->. right. split; [done|]. by intros g ?%elem_of_nil.
    + intros [(vs & ?%elem_of_nil & _)|[-> _]]; done.
  - intros [Hhead Hd]. destruct (key_eqb k k') eqn:Hk.
    + rewrite elem_of_cons. split.
      * intros [[= -> ->]|Hin].
        -- left. exists vs'. split; [left|]. by rewrite Hk.
        -- left. exists vs2. split; [by right|].
           rewrite (key_eqb_false_l k' k k2); [by rewrite app_nil_r|by rewrite key_eqb_sym|].
           apply (Hhead (k2, vs2) Hin).
      * intros [(vs & [[= -> ->]|Hin]%elem_of_cons & ->)|[_ Hnone]].
        -- left. by rewrite Hk.
        -- right. rewrite (key_eqb_false_l k' k k2); [by rewrite app_nil_r|by rewrite key_eqb_sym|].
           apply (Hhead (k2, vs) Hin).
        -- specialize (Hnone (k', vs') ltac:(left)). simpl in Hnone. congruence.
    + rewrite elem_of_cons, (IH Hd). split.
      * intros [[= -> ->]|[(vs & Hin & ->)|[Heq Hnone]]].
        -- left. exists vs'. split; [left|]. by rewrite Hk, app_nil_r.
        -- left. exists vs. split; [by right|done].
        -- right. split; [done|]. intros g [->|Hg]%elem_of_cons; [done|by apply Hnone].
      * intros [(vs & [[= -> ->]|Hin]%elem_of_cons & ->)|[Heq Hnone]].
        -- left. by rewrite Hk, app_nil_r.
        -- right. left. by exists vs.
        -- right. right. split; [done|]. intros g Hg. apply Hnone. by right.
Qed.

Lemma group_add_distinct (k : cell) (v : option Q) (gs : list (cell * list (option Q))) :
  groups_distinct gs → groups_distinct (group_add k v gs).
Proof.
  induction gs as [|[k' vs'] gs IH]; simpl.
  - intros _. split; [|done]. by intros g ?%elem_of_nil.
  - intros [Hhead Hd]. destruct (key_eqb k k') eqn:Hk; simpl.
    + split; [|done]. exact Hhead.
    + split; [|by apply IH]. intros [k2 vs2] Hg. simpl.
      apply (elem_of_group_add _ _ _ _ _ Hd) in Hg as [(vs & Hin & _)|[[= -> _] _]].
      * apply (Hhead (k2, vs) Hin).
      * by rewrite key_eqb_sym.
Qed.

Lemma key_eqb_missing (k k2 : cell) :
  is_missing k = true → is_missing k2 = false → key_eqb k k2 = false.
Proof. destruct k as [x|[x|]|[x|]], k2 as [y|[y|]|[y|]]; simpl; try done. Qed.

Lemma values_of_snoc (rows : list (cell * option Q)) (k : cell) (v : option Q) (k2 : cell) :
  values_of (rows ++ [(k, v)]) k2 = values_of rows k2 ++ (if key_eqb k k2 then [v] else []).
Proof.
  unfold values_of. rewrite filter_app, fmap_app. f_equal.
  rewrite filter_cons, filter_nil. simpl. by destruct (key_eqb k k2).
Qed.

Lemma values_of_nil (rows : list (cell * option Q)) (k : cell) :
  (∀ k' v', (k', v') ∈ rows → key_eqb k' k = false) → values_of rows k = [].
Proof.
  unfold values_of. induction rows as [|[k' v'] rows IH]; intros Hnone; [done|].
  rewrite filter_cons. simpl. rewrite (Hnone k' v') by left. simpl.
  apply IH. intros k2 v2 Hin. apply (Hnone k2 v2). by right.
Qed.

Lemma group_rows_spec (rows : list (cell * option Q)) :
  groups_distinct (group_rows rows)
  ∧ (∀ k vs, (k, vs) ∈ group_rows rows →
       is_missing k = false ∧ vs = values_of rows k)
  ∧ (∀ k v, (k, v) ∈ rows → is_missing k = false →
       ∃ k' vs, (k', vs) ∈ group_rows rows ∧ key_eqb k k' = true).
Proof.
  induction rows as [|[k v] rows (Hd & Hgroups & Hall)] using rev_ind.
  - split_and!; [done|by intros k vs ?%elem_of_nil|by intros k v ?%elem_of_nil].
  - unfold group_rows in *. rewrite foldl_snoc.
    set (gs := foldl _ [] rows) in *. simpl.
    destruct (is_missing k) eqn:Hmiss.
    + split_and!; [done| |].
      * intros k2 vs2 Hin. destruct (Hgroups k2 vs2 Hin) as [Hk2 ->]. split; [done|].
        by rewrite values_of_snoc, (key_eqb_missing k k2), app_nil_r.
      * intros k2 v2 [Hin|[= -> ->]%list_elem_of_singleton]%elem_of_app Hk2;
          [by apply (Hall k2 v2)|congruence].
    + split_and!; [by apply group_add_distinct| |].
      * intros k2 vs2 Hin. rewrite values_of_snoc.
        apply (elem_of_group_add _ _ _ _ _ Hd) in Hin as [(vs & Hin & ->)|[[= -> ->] Hnone]].
        -- destruct (Hgroups k2 vs Hin) as [Hk2 ->]. done.
        -- split; [done|]. rewrite key_eqb_refl, values_of_nil; [done|].
           intros k' v' Hin. destruct (key_eqb k' k) eqn:Hk'; [|done].
           destruct (is_missing k') eqn:Hm'; [by rewrite (key_eqb_missing k' k) in Hk'|].
           destruct (Hall k' v' Hin Hm') as (k2 & vs2 & Hg & Hk2).
           specialize (Hnone (k2, vs2) Hg). simpl in Hnone.
           rewrite key_eqb_sym in Hk'. by rewrite (key_eqb_trans k k' k2) in Hnone.
      * intros k2 v2 [Hin|[= -> ->]%list_elem_of_singleton]%elem_of_app Hk2.
        -- destruct (Hall k2 v2 Hin Hk2) as (k' & vs & Hg & Hk').
           exists k', (vs ++ (if key_eqb k k' then [v] else [])). split; [|done].
           apply (elem_of_group_add _ _ _ _ _ Hd). left. by exists vs.
        -- destruct (decide (Exists (λ g, key_eqb k g.1 = true) gs)) as [Hex|Hnex].
           ++ apply Exists_exists in Hex as ([k' vs] & Hg & Hk'). simpl in Hk'.
              exists k', (vs ++ (if key_eqb k k' then [v] else [])). split; [|done].
              apply (elem_of_group_add _ _ _ _ _ Hd). left. by exists vs.
           ++ exists k, [v]. split; [|apply key_eqb_refl].
              apply (elem_of_group_add _ _ _ _ _ Hd). right. split; [done|].
              intros g Hg. destruct (key_eqb k g.1) eqn:Hkg; [|done].
              destruct Hnex. apply Exists_exists. by exists g.
Qed.

Lemma sort_insert_perm {A} (g : cell * A) (gs : list (cell * A)) : sort_insert g gs ≡ₚ g :: gs.
Proof.
  induction gs as [|g' gs IH]; simpl; [done|].
  destruct (cell_leb g.1 g'.1); [done|]. rewrite IH. apply Permutation_swap.
Qed.

Lemma sort_groups_perm {A} (gs : list (cell * A)) : sort_groups gs ≡ₚ gs.
Proof.
  unfold sort_groups. induction gs as [|g gs IH]; simpl; [done|].
  by rewrite sort_insert_perm, IH.
Qed.

Lemma mean_arithmetic (vs : list (option Q)) : mean vs = arithmetic_mean vs.
Proof. unfold mean, arithmetic_mean. by destruct (omap id vs). Qed.

Lemma lookup_makedirs (fs : files) (l : list path) (q : path) :
  foldr (λ q, <[q := Dir]>) fs l !! q = if bool_decide (q ∈ l) then Some Dir else fs !! q.
Proof.
  induction l as [|p l IH]; cbn [foldr].
  - rewrite bool_decide_eq_false_2; [done|]. by intros ?%elem_of_nil.
  - destruct (decide (p = q)) as [->|Hne].
    + rewrite lookup_insert_eq, bool_decide_eq_true_2; [done|left].
    + rewrite lookup_insert_ne, IH by done. case_bool_decide as Hin.
      * rewrite bool_decide_eq_true_2; [done|by right].
      * rewrite bool_decide_eq_false_2; [done|]. intros [->|?]%elem_of_cons; done.
Qed.

(** ** The chart *)

Lemma analyze_and_visualize_spec (csv_path : path) (fs : files) :
  let dir := os_path_join OUTPUT_DIR "visuals" in
  let p := os_path_join dir "avg_rating_by_genre.png" in
  analyze_and_visualize csv_path fs =
  match read_csv csv_path fs with
  | Raise e => (fs, Raise e)
  | Ret df =>
      match os_makedirs dir fs with
      | (fs1, Raise e) => (fs1, Raise e)
      | (fs1, Ret _) =>
          match groupby_mean df "genre" "rating" with
          | Raise e => (fs1, Raise e)
          | Ret genre_avg =>
              match plot_bar genre_avg "Average Rating by Genre" with
              | Raise e => (fs1, Raise e)
              | Ret fig =>
                  match open_error fs1 p with
                  | Some e => (fs1, Raise e)
                  | None => (<[p := File (Png (plt_ylabel "Average Rating" fig))]> fs1, Ret p)
                  end
              end
          end
      end
  end.
Proof.
  intros dir p. unfold analyze_and_visualize. rewrite bind_task. unfold lift at 1.
  destruct (read_csv csv_path fs) as [df|e]; [|done].
  rewrite bind_task. fold dir. destruct (os_makedirs dir fs) as [fs1 [[]|e]]; [|done].
  rewrite bind_task. unfold lift at 1.
  destruct (groupby_mean df "genre" "rating") as [avg|e]; [|done].
  rewrite bind_task. unfold lift at 1.
  destruct (plot_bar avg _) as [fig|e]; [|done].
  rewrite bind_task. unfold savefig, write_file. fold p.
  by destruct (open_error fs1 p).
Qed.



(** ** The load *)

Section load.
Context (sql_ident : string → option string) (float_repr : Q → string).

Let target := (SCHEMA, TARGET_TABLE).

Lemma length_omap_total {A B} (f : A → option B) (l : list A) :
  Forall (λ x, is_Some (f x)) l → length (omap f l) = length l.
Proof.
  induction 1 as [|x l [y Hy] _ IH]; csimpl; [done|]. rewrite Hy. simpl. by rewrite IH.
Qed.

Lemma iterrows_str_length (df : DataFrame) :
  length (iterrows_str float_repr df) = df_len df.
Proof. unfold iterrows_str. by rewrite length_fmap, length_seq. Qed.

Lemma iterrows_str_row_length (df : DataFrame) (row : list string) :
  df_wf df → row ∈ iterrows_str float_repr df → length row = length df.
Proof.
  intros (_ & _ & Hlen) Hrow. unfold iterrows_str in Hrow.
  apply list_elem_of_fmap in Hrow as (i & -> & Hi). apply elem_of_seq in Hi as [_ Hi].
  apply length_omap_total. eapply Forall_impl; [exact Hlen|].
  intros [n c] Hc. simpl in *. apply fmap_is_Some, lookup_lt_is_Some.
  unfold col_len in Hc. lia.
Qed.

Lemma execute_inserts (cs tc : list string) (columns : list string) (S : gset string)
    (T : gmap (string * string) table) (rows : list (list string))
    (acc : list (list (option string))) :
  idents sql_ident columns = Ret cs →
  NoDup cs → cs ⊆ tc →
  Forall (λ row, length row = length cs) rows →
  execute_all sql_ident (InsertInto SCHEMA TARGET_TABLE columns <$> rows)
    (Database S (<[target := Table tc acc]> T))
  = Ret (Database S (<[target := Table tc (acc ++ (inserted_row tc cs <$> rows))]> T)).
Proof.
  intros Hid Hnd Hsub Hrows. revert acc.
  induction Hrows as [|row rows Hrow Hrows IH]; intros acc; simpl.
  - by rewrite app_nil_r.
  - rewrite Hid. simpl. fold target. rewrite lookup_insert_eq. simpl.
    rewrite bool_decide_eq_true_2 by done. simpl.
    rewrite insert_insert_eq, IH. by rewrite <- app_assoc.
Qed.

Lemma load_to_postgres_spec (csv_path : path) (fs : files) (db : database)
    (df : DataFrame) (cs : list string) :
  read_csv csv_path fs = Ret df →
  df_wf df →
  idents sql_ident (df_columns df) = Ret cs →
  NoDup cs →
  accepts_columns db cs = true →
  load_to_postgres sql_ident float_repr csv_path fs db =
  (Database ({[SCHEMA]} ∪ schemas db)
     (<[target := Table (target_columns db cs)
                    (target_rows db
                     ++ (inserted_row (target_columns db cs) cs <$> iterrows_str float_repr df))]>
        (tables db)),
   Ret (df_len df)).
Proof.
  intros Hread Hwf Hid Hnd Hacc.
  assert (Hrows : Forall (λ row, length row = length cs) (iterrows_str float_repr df)).
  { apply Forall_forall. intros row Hrow. rewrite (iterrows_str_row_length df row Hwf Hrow).
    unfold idents in Hid. destruct (mapM sql_ident (df_columns df)) as [cs'|] eqn:Hm; [|done].
    injection Hid as ->. apply length_mapM in Hm. unfold df_columns in Hm.
    by rewrite length_fmap in Hm. }
  unfold load_to_postgres. rewrite Hread. unfold load_statements.
  cbn [app execute_all execute mbind outcome_bind]. rewrite Hid. cbn [mbind outcome_bind schemas tables].
  rewrite bool_decide_eq_false_2 by set_solver.
  unfold accepts_columns, target_columns, target_rows in *. fold target in Hacc |- *.
  destruct (tables db !! target) as [[tc rows]|] eqn:Htb; simpl in *.
  - apply bool_decide_eq_true_1 in Hacc.
    rewrite <- (insert_id (tables db) target (Table tc rows)) at 1 by done.
    by rewrite (execute_inserts cs tc) by done.
  - rewrite bool_decide_eq_true_2 by done.
    cbn [mbind outcome_bind]. by rewrite (execute_inserts cs cs) by done.
Qed.

End load.






(** * Further properties of the tasks *)

(** ** Columns *)

Lemma df_getitem_missing (df : DataFrame) (name : string) :
  name ∉ df_columns df → df_getitem df name = Raise (KeyError name).
Proof.
  induction df as [|[n c] df IH]; simpl; [done|].
  intros [Hne Hin]%not_elem_of_cons. rewrite decide_False by done. by apply IH.
Qed.

Lemma df_getitem_raise (df : DataFrame) (name : string) (e : exn) :
  df_getitem df name = Raise e → e = KeyError name.
Proof.
  induction df as [|[n c] df IH]; simpl; [by intros [= <-]|].
  case_decide; [done|apply IH].
Qed.

Lemma df_getitem_present (df : DataFrame) (name : string) :
  name ∈ df_columns df → ∃ c, df_getitem df name = Ret c.
Proof.
  induction df as [|[n c] df IH]; simpl; [by intros ?%elem_of_nil|].
  intros [->|Hin]%elem_of_cons; [rewrite decide_True by done; eauto|].
  case_decide; eauto.
Qed.

Lemma df_setitem_idem (df : DataFrame) (name : string) (c c' : column) :
  df_setitem (df_setitem df name c) name c' = df_setitem df name c'.
Proof.
  induction df as [|[n c0] df IH]; simpl.
  - by rewrite decide_True.
  - destruct (decide (n = name)) as [->|Hne]; simpl.
    + by rewrite decide_True.
    + rewrite decide_False by done. by rewrite IH.
Qed.

Lemma df_setitem_columns (df : DataFrame) (name : string) (c : column) :
  df_columns (df_setitem df name c)
  = if bool_decide (name ∈ df_columns df) then df_columns df else df_columns df ++ [name].
Proof.
  case_bool_decide as Hin.
  - by apply df_setitem_columns_old.
  - rewrite df_setitem_new by done. unfold df_columns. by rewrite fmap_app.
Qed.

Lemma open_error_output (fs : files) (name : string) (c : content) :
  open_error fs (os_path_join OUTPUT_DIR name) = None →
  open_error (<[os_path_join OUTPUT_DIR name := File c]> fs) (os_path_join OUTPUT_DIR name) = None.
Proof.
  apply open_error_written. rewrite dirname_join. apply join_ne_dir.
Qed.

(** ** [transform_movies] and [transform_ratings] when they fail *)



(** ** Columns that are already there *)



Lemma cut_length (rating category : column) (bins : list Q) (labels : list string) :
  cut rating bins labels = Ret category → col_len category = col_len rating.
Proof.
  unfold col_len. destruct rating as [xs|xs|xs]; simpl.
  - intros [= <-]. simpl. by rewrite !length_fmap.
  - intros [= <-]. simpl. by rewrite !length_fmap.
  - destruct (has_text xs); [done|]. by intros [= <-].
Qed.

(** X4.  On a CSV with a numeric rating column [transform_ratings] gives
    the category column one entry per row, the missing value where the
    rating is missing; it puts the column in place of a rating_category
    column that is already there, and at the end otherwise, and leaves every
    other column as it was. *)
Theorem transform_ratings_category_column (rp : path) (fs : files) (df : DataFrame)
    (rating : column) :
  let p := os_path_join OUTPUT_DIR "ratings_transformed.csv" in
  read_csv rp fs = Ret df →
  df_getitem df "rating" = Ret rating →
  is_object rating = false →
  open_error fs p = None →
  ∃ out category,
    transform_ratings rp fs = (<[p := File (Csv out)]> fs, Ret p)
    ∧ df_getitem out "rating_category" = Ret category
    ∧ col_len category = col_len rating
    ∧ df_columns out
      = (if bool_decide ("rating_category" ∈ df_columns df) then df_columns df
         else df_columns df ++ ["rating_category"])
    ∧ (∀ n, n ≠ "rating_category" → df_getitem out n = df_getitem df n)
    ∧ (∀ i x, col_cells rating !! i = Some x → cell_float x = None →
         col_cells category !! i = Some (CStr None)).
Proof.
  intros p Hread Hrating Hnum Hopen.
  destruct (cut rating rating_bins rating_labels) as [category|e] eqn:Hcut; [|by destruct rating].
  exists (df_setitem df "rating_category" category), category. split_and!.
  - rewrite transform_ratings_spec, Hread, Hrating. simpl. rewrite Hcut.
    fold p. by rewrite Hopen.
  - apply df_getitem_setitem.
  - by eapply cut_length.
  - apply df_setitem_columns.
  - intros n Hn. by apply df_getitem_setitem_ne.
  - intros i x Hi Hx. by rewrite (cut_cells _ _ _ _ Hnum Hcut Hi), Hx.
Qed.

Lemma transform_ratings_category_column_witness :
  let p := os_path_join OUTPUT_DIR "ratings_transformed.csv" in
  let fs := <[os_path_join OUTPUT_DIR "ratings.csv" := File (Csv ratings_with_gap)]> fresh_fs in
  ∃ out category,
    transform_ratings (os_path_join OUTPUT_DIR "ratings.csv") fs
    = (<[p := File (Csv out)]> fs, Ret p)
    ∧ df_getitem out "rating_category" = Ret category
    ∧ col_len category = col_len (FloatCol [Some 9.0; None]%Q)
    ∧ df_columns out
      = (if bool_decide ("rating_category" ∈ df_columns ratings_with_gap)
         then df_columns ratings_with_gap
         else df_columns ratings_with_gap ++ ["rating_category"])
    ∧ (∀ n, n ≠ "rating_category" → df_getitem out n = df_getitem ratings_with_gap n)
    ∧ (∀ i x, col_cells (FloatCol [Some 9.0; None]%Q) !! i = Some x → cell_float x = None →
         col_cells category !! i = Some (CStr None)).
Proof.
  apply (transform_ratings_category_column (os_path_join OUTPUT_DIR "ratings.csv")
           (<[os_path_join OUTPUT_DIR "ratings.csv" := File (Csv ratings_with_gap)]> fresh_fs)
           ratings_with_gap (FloatCol [Some 9.0; None]%Q)).
  - vm_compute. reflexivity.
  - reflexivity.
  - reflexivity.
  - vm_compute. reflexivity.
Defined.

(** ** Running a transformation again *)

(** X5.  Running [transform_movies], or [transform_ratings], a second time
    on the same input gives the state and the result of the first run, also
    when the input is the file the task writes. *)
Theorem transform_rerun (p_in : path) (fs : files) :
  transform_movies p_in (transform_movies p_in fs).1 = transform_movies p_in fs
  ∧ transform_ratings p_in (transform_ratings p_in fs).1 = transform_ratings p_in fs.
Proof.
  split.
  - rewrite (transform_movies_spec p_in fs).
    set (p := os_path_join OUTPUT_DIR "movies_transformed.csv").
    destruct (read_csv p_in fs) as [df|e] eqn:Hread; simpl;
      [|by rewrite transform_movies_spec, Hread].
    destruct (_ ≫= _) as [decade|e] eqn:Hdec; simpl;
      [|by rewrite transform_movies_spec, Hread, Hdec].
    destruct (open_error fs p) as [e|] eqn:Hopen; simpl;
      [by rewrite transform_movies_spec, Hread, Hdec; fold p; rewrite Hopen|].
    rewrite transform_movies_spec. fold p. rewrite (open_error_output fs _ _ Hopen).
    destruct (decide (p_in = p)) as [->|Hne].
    + rewrite read_csv_written, df_getitem_setitem_ne, Hdec by done.
      by rewrite df_setitem_idem, insert_insert_eq.
    + unfold read_csv in *. rewrite lookup_insert_ne by done.
      destruct (fs !! p_in) as [[|[df'| |]]|]; try done.
      injection Hread as ->. rewrite Hdec. by rewrite insert_insert_eq.
  - rewrite (transform_ratings_spec p_in fs).
    set (p := os_path_join OUTPUT_DIR "ratings_transformed.csv").
    destruct (read_csv p_in fs) as [df|e] eqn:Hread; simpl;
      [|by rewrite transform_ratings_spec, Hread].
    destruct (_ ≫= _) as [category|e] eqn:Hcat; simpl;
      [|by rewrite transform_ratings_spec, Hread, Hcat].
    destruct (open_error fs p) as [e|] eqn:Hopen; simpl;
      [by rewrite transform_ratings_spec, Hread, Hcat; fold p; rewrite Hopen|].
    rewrite transform_ratings_spec. fold p. rewrite (open_error_output fs _ _ Hopen).
    destruct (decide (p_in = p)) as [->|Hne].
    + rewrite read_csv_written, df_getitem_setitem_ne, Hcat by done.
      by rewrite df_setitem_idem, insert_insert_eq.
    + unfold read_csv in *. rewrite lookup_insert_ne by done.
      destruct (fs !! p_in) as [[|[df'| |]]|]; try done.
      injection Hread as ->. rewrite Hcat. by rewrite insert_insert_eq.
Qed.

(** ** [merge_datasets] when it fails, and the size of the join *)


Lemma keys_unique_spec (ks : list cell) (i j : nat) (a b : cell) :
  keys_unique ks = true → ks !! i = Some a → ks !! j = Some b → key_eqb a b = true → i = j.
Proof.
  unfold keys_unique. rewrite forallb_forall. intros Hu Hi Hj Hab.
  specialize (Hu (i, a)). rewrite forallb_forall in Hu.
  assert (Hin : ∀ k c, ks !! k = Some c → In (k, c) (imap pair ks)).
  { intros k c Hk. apply list_elem_of_In, elem_of_lookup_imap. by exists k, c. }
  specialize (Hu (Hin i a Hi) (j, b) (Hin j b Hj)). simpl in Hu.
  rewrite Hab in Hu. simpl in Hu. by apply bool_decide_eq_true_1 in Hu.
Qed.

Lemma keys_covered_spec (lk rk : list cell) (j : nat) (b : cell) :
  keys_covered lk rk = true → rk !! j = Some b →
  ∃ i a, lk !! i = Some a ∧ key_eqb a b = true.
Proof.
  unfold keys_covered. rewrite forallb_forall. intros Hc Hj.
  specialize (Hc b (proj1 (list_elem_of_In _ _) (list_elem_of_lookup_2 _ _ _ Hj))).
  apply existsb_exists in Hc as (a & Ha & Hab).
  apply list_elem_of_In, list_elem_of_lookup in Ha as [i Hi]. by exists i, a.
Qed.

Lemma NoDup_join_pairs (lk rk : list cell) : NoDup (join_pairs lk rk).
Proof.
  unfold join_pairs. apply NoDup_bind; [| |apply NoDup_seq].
  - intros i1 i2 [i j] _ _ Hy1 Hy2.
    apply list_elem_of_bind in Hy1 as (j1 & Hy1 & _).
    apply list_elem_of_bind in Hy2 as (j2 & Hy2 & _).
    repeat case_match; try (by apply elem_of_nil in Hy1); try (by apply elem_of_nil in Hy2).
    apply list_elem_of_singleton in Hy1, Hy2. congruence.
  - intros i _. apply NoDup_bind; [| |apply NoDup_seq].
    + intros j1 j2 [i' j] _ _ Hy1 Hy2.
      repeat case_match; try (by apply elem_of_nil in Hy1); try (by apply elem_of_nil in Hy2).
      apply list_elem_of_singleton in Hy1, Hy2. congruence.
    + intros j _. repeat case_match; try apply NoDup_nil_2. apply NoDup_singleton.
Qed.

Lemma join_pairs_length_unique (lk rk : list cell) :
  keys_unique lk = true →
  length (join_pairs lk rk) ≤ length rk
  ∧ (keys_covered lk rk = true → length (join_pairs lk rk) = length rk).
Proof.
  intros Hu.
  assert (Hnd : NoDup (join_pairs lk rk).*2).
  { apply NoDup_fmap_2_strong; [|apply NoDup_join_pairs].
    intros [i j] [i' j'] Hx Hy Heq. simpl in Heq. subst j'.
    apply elem_of_join_pairs in Hx as (a & b & Ha & Hb & Hab).
    apply elem_of_join_pairs in Hy as (a' & b' & Ha' & Hb' & Hab').
    assert (b' = b) as -> by congruence.
    f_equal. apply (keys_unique_spec lk i i' a a' Hu Ha Ha').
    apply (key_eqb_trans a b a' Hab). by rewrite key_eqb_sym. }
  assert (Hsub : ∀ j, j ∈ (join_pairs lk rk).*2 → j ∈ seq 0 (length rk)).
  { intros j ([i j'] & -> & Hij)%list_elem_of_fmap. simpl.
    apply elem_of_join_pairs in Hij as (a & b & _ & Hb & _).
    apply elem_of_seq. apply lookup_lt_Some in Hb. lia. }
  split.
  - rewrite <- (length_fmap snd (join_pairs lk rk)), <- (length_seq (length rk) 0).
    apply submseteq_length, NoDup_submseteq; done.
  - intros Hc. rewrite <- (length_fmap snd (join_pairs lk rk)).
    rewrite <- (length_seq (length rk) 0).
    apply Permutation_length, NoDup_Permutation; [done|apply NoDup_seq|].
    intros j. split; [apply Hsub|].
    intros [_ Hj]%elem_of_seq. simpl in Hj.
    apply lookup_lt_is_Some_2 in Hj as [b Hb].
    destruct (keys_covered_spec lk rk j b Hc Hb) as (i & a & Ha & Hab).
    apply list_elem_of_fmap. exists (i, j). split; [done|].
    apply elem_of_join_pairs. by exists a, b.
Qed.

Lemma pd_merge_len (dfm dfr merged : DataFrame) (on : string) (km kr : column) :
  df_wf dfm →
  df_getitem dfm on = Ret km → df_getitem dfr on = Ret kr →
  pd_merge dfm dfr on = Ret merged →
  df_len merged = length (join_pairs (col_cells km) (col_cells kr)).
Proof.
  intros Hwf Hkm Hkr. unfold pd_merge. rewrite Hkm, Hkr. simpl.
  destruct (negb _); [done|]. case_bool_decide; [|done]. intros [= <-].
  pose proof (df_wf_col_len dfm on km Hwf (df_getitem_elem_of _ _ _ Hkm)) as Hlen.
  destruct Hwf as (Hne & _ & _). destruct dfm as [|[n0 c0] dfm']; [done|].
  simpl in *. unfold col_len in *. rewrite col_cells_take, series_take_length, length_fmap; [done|].
  rewrite <- Hlen. apply join_pairs_bounds.
Qed.



(** ** What the load stores *)

Lemma inserted_row_lookup (tc cs : list string) (vs : list string) (j : nat) (c : string) :
  NoDup cs → length vs = length cs → tc !! j = Some c →
  (∀ i, cs !! i = Some c → inserted_row tc cs vs !! j = Some (vs !! i))
  ∧ (c ∉ cs → inserted_row tc cs vs !! j = Some None).
Proof.
  intros Hnd Hlen Hj. unfold inserted_row. rewrite list_lookup_fmap, Hj. simpl.
  assert (Hfst : (zip cs vs).*1 = cs) by (apply fst_zip; lia).
  split.
  - intros i Hi. f_equal.
    destruct (lookup_lt_is_Some_2 vs i) as [v Hv]; [apply lookup_lt_Some in Hi; lia|].
    rewrite Hv. apply elem_of_list_to_map_1; [by rewrite Hfst|].
    apply list_elem_of_lookup. exists i. by rewrite lookup_zip_with, Hi, Hv.
  - intros Hc. f_equal. apply not_elem_of_list_to_map_1. by rewrite Hfst.
Qed.

Lemma inserted_row_self (cs : list string) (vs : list string) :
  NoDup cs → length vs = length cs → inserted_row cs cs vs = Some <$> vs.
Proof.
  intros Hnd Hlen. apply list_eq. intros j. rewrite list_lookup_fmap.
  destruct (cs !! j) as [c|] eqn:Hc.
  - destruct (inserted_row_lookup cs cs vs j c Hnd Hlen Hc) as [Hin _].
    rewrite (Hin j Hc).
    destruct (lookup_lt_is_Some_2 vs j) as [v Hv]; [apply lookup_lt_Some in Hc; lia|].
    by rewrite Hv.
  - unfold inserted_row. rewrite list_lookup_fmap, Hc. simpl.
    apply lookup_ge_None in Hc. rewrite (proj2 (lookup_ge_None vs j)); [done|lia].
Qed.

Section stored.
Context (sql_ident : string → option string) (float_repr : Q → string).

Lemma iterrows_str_ident_length (df : DataFrame) (cs : list string) (vs : list string) :
  df_wf df → idents sql_ident (df_columns df) = Ret cs →
  vs ∈ iterrows_str float_repr df → length vs = length cs.
Proof.
  intros Hwf Hid Hvs. rewrite (iterrows_str_row_length float_repr df vs Hwf Hvs).
  unfold idents in Hid. destruct (mapM sql_ident (df_columns df)) as [cs'|] eqn:Hm; [|done].
  injection Hid as ->. apply length_mapM in Hm. unfold df_columns in Hm.
  by rewrite length_fmap in Hm.
Qed.



End stored.



(** ** [load_to_postgres] when it fails *)

Lemma iterrows_str_cons (float_repr : Q → string) (df : DataFrame) :
  df_len df ≠ 0 → ∃ vs rows, iterrows_str float_repr df = vs :: rows.
Proof.
  unfold iterrows_str. destruct (df_len df) as [|n]; [done|]. intros _. simpl. eauto.
Qed.


(** ** Directories *)

Lemma ancestors_self (p : path) : p ≠ [] → p ∈ ancestors p.
Proof.
  intros Hp. unfold ancestors. apply list_elem_of_fmap. exists (length p). split.
  - by rewrite firstn_all.
  - apply elem_of_seq. destruct p; [done|simpl; lia].
Qed.

Lemma makedirs_files (fs : files) (l : list path) (q : path) (c : content) :
  existsb (isfile fs) l = false →
  foldr (λ q, <[q := Dir]>) fs l !! q = Some (File c) ↔ fs !! q = Some (File c).
Proof.
  intros Hl. rewrite lookup_makedirs. case_bool_decide as Hin; [|done].
  split; [done|]. intros Hfile.
  assert (Hex : existsb (isfile fs) l = true); [|congruence].
  apply existsb_exists. exists q. split; [by apply list_elem_of_In|].
  unfold isfile. by rewrite Hfile.
Qed.


(** ** [analyze_and_visualize] when it fails *)


(** ** The order of the bars *)

Lemma cell_leb_total (a b : cell) : cell_leb a b = false → cell_leb b a = true.
Proof.
  destruct a as [x|[x|]|[x|]], b as [y|[y|]|[y|]]; simpl; try done.
  - intros H. apply bool_decide_eq_false in H. apply bool_decide_eq_true. lia.
  - intros H. apply Qle_bool_iff. apply Qlt_le_weak, Qnot_le_lt. intros Hle.
    apply Qle_bool_iff in Hle. congruence.
  - intros H. destruct (String.leb_total x y) as [Hxy|Hyx]; congruence.
Qed.

Lemma sort_insert_sorted {A} (g : cell * A) (gs : list (cell * A)) :
  bars_sorted gs → bars_sorted (sort_insert g gs).
Proof.
  unfold bars_sorted. induction gs as [|g' gs IH]; simpl; intros Hs.
  - by repeat constructor.
  - destruct (cell_leb g.1 g'.1) eqn:Hle.
    + constructor; [done|]. by constructor.
    + apply Sorted_inv in Hs as [Hs Hhd]. constructor; [by apply IH|].
      destruct gs as [|g'' gs]; simpl.
      * constructor. by apply cell_leb_total.
      * destruct (cell_leb g.1 g''.1); constructor.
        -- by apply cell_leb_total.
        -- by apply HdRel_inv in Hhd.
Qed.

Lemma sort_groups_sorted {A} (gs : list (cell * A)) : bars_sorted (sort_groups gs).
Proof.
  unfold sort_groups. induction gs as [|g gs IH]; simpl.
  - constructor.
  - by apply sort_insert_sorted.
Qed.

Lemma bars_sorted_fmap {A B} (f : A → B) (gs : list (cell * A)) :
  bars_sorted gs → bars_sorted (prod_map id f <$> gs).
Proof.
  unfold bars_sorted. induction 1 as [|g gs Hs IH Hhd]; csimpl; constructor; [done|].
  destruct Hhd; csimpl; by constructor.
Qed.

Lemma sort_insert_distinct {A} (g : cell * A) (gs : list (cell * A)) :
  groups_distinct (g :: gs) → groups_distinct (sort_insert g gs).
Proof.
  induction gs as [|g' gs IH]; [done|]. intros (Hg & Hg' & Hgs). simpl.
  destruct (cell_leb g.1 g'.1); [done|]. split.
  - intros h Hh. rewrite sort_insert_perm in Hh. apply elem_of_cons in Hh as [->|Hh].
    + rewrite key_eqb_sym. apply Hg. by left.
    + by apply Hg'.
  - apply IH. split; [|done]. intros h Hh. apply Hg. by right.
Qed.

Lemma sort_groups_distinct {A} (gs : list (cell * A)) :
  groups_distinct gs → groups_distinct (sort_groups gs).
Proof.
  unfold sort_groups. induction gs as [|g gs IH]; [done|]. intros (Hg & Hgs). simpl.
  apply sort_insert_distinct. split; [|by apply IH].
  intros h Hh. apply Hg. by rewrite <- (sort_groups_perm gs).
Qed.

Lemma groups_distinct_fmap {A B} (f : A → B) (gs : list (cell * A)) :
  groups_distinct gs → groups_distinct (prod_map id f <$> gs).
Proof.
  induction gs as [|g gs IH]; [done|]. intros (Hg & Hgs). csimpl. split; [|by apply IH].
  intros h Hh. apply list_elem_of_fmap in Hh as (h' & -> & Hh'). simpl. by apply Hg.
Qed.

(** X13.  Whenever [analyze_and_visualize] returns, the file at the path it
    returns is a chart titled "Average Rating by Genre" with the y label
    "Average Rating"; the chart has at least one bar, its bars stand in
    ascending order of their genre, no two bars are for the same genre and no
    bar is for a missing genre. *)
Theorem analyze_and_visualize_bars_sorted (csv_path p : path) (fs fs' : files) :
  analyze_and_visualize csv_path fs = (fs', Ret p) →
  ∃ fig,
    fs' !! p = Some (File (Png fig))
    ∧ chart_title fig = "Average Rating by Genre"
    ∧ chart_ylabel fig = "Average Rating"
    ∧ chart_bars fig ≠ []
    ∧ bars_sorted (chart_bars fig)
    ∧ groups_distinct (chart_bars fig)
    ∧ (∀ k m, (k, m) ∈ chart_bars fig → is_missing k = false).
Proof.
  rewrite analyze_and_visualize_spec.
  destruct (read_csv csv_path fs) as [df|e]; [|done].
  destruct (os_makedirs _ fs) as [fs1 [[]|e]]; [|done].
  unfold groupby_mean.
  destruct (df_getitem df "genre") as [k|e]; [|done]. cbn [mbind outcome_bind].
  destruct (df_getitem df "rating") as [v|e]; [|done]. cbn [mbind outcome_bind].
  destruct (col_floats v) as [vs|e]; [|done]. cbn [mbind outcome_bind mret outcome_ret].
  set (rows := zip (col_cells k) vs).
  set (bars := prod_map id mean <$> sort_groups (group_rows rows)).
  unfold plot_bar. destruct bars as [|b bars'] eqn:Hbars; [done|]. rewrite <- Hbars.
  destruct (open_error fs1 _); [done|]. intros [= <- <-].
  eexists. split; [apply lookup_insert_eq|]. simpl.
  destruct (group_rows_spec rows) as (Hd & Hgroups & _).
  split_and!; try done.
  - by rewrite Hbars.
  - apply bars_sorted_fmap, sort_groups_sorted.
  - by apply groups_distinct_fmap, sort_groups_distinct.
  - intros k' m Hin. apply list_elem_of_fmap in Hin as ([k'' ws] & [= -> ->] & Hin).
    rewrite sort_groups_perm in Hin. by apply Hgroups in Hin as [? _].
Qed.

Lemma analyze_and_visualize_bars_sorted_witness :
  ∃ fig,
    (analyze_and_visualize (os_path_join OUTPUT_DIR "merged_movies.csv") fs_merged).1
      !! (os_path_join (os_path_join OUTPUT_DIR "visuals") "avg_rating_by_genre.png")
      = Some (File (Png fig))
    ∧ chart_title fig = "Average Rating by Genre"
    ∧ chart_ylabel fig = "Average Rating"
    ∧ chart_bars fig ≠ []
    ∧ bars_sorted (chart_bars fig)
    ∧ groups_distinct (chart_bars fig)
    ∧ (∀ k m, (k, m) ∈ chart_bars fig → is_missing k = false).
Proof.
  apply (analyze_and_visualize_bars_sorted (os_path_join OUTPUT_DIR "merged_movies.csv") _
           fs_merged).
  assert (Hret : (analyze_and_visualize (os_path_join OUTPUT_DIR "merged_movies.csv") fs_merged).2
                 = Ret (os_path_join (os_path_join OUTPUT_DIR "visuals") "avg_rating_by_genre.png"))
    by (vm_compute; reflexivity).
  destruct (analyze_and_visualize _ fs_merged) as [fs' r]. simpl in Hret. by rewrite Hret.
Defined.

(** ** What cleanup leaves alone *)

Lemma cleanup_loop_only_csv (folder : path) (names : list string) (fs fs' : files)
    (r : outcome unit) :
  for_each names (λ file,
    if endswith file ".csv" then os_remove (os_path_join folder file) else mret ()) fs
    = (fs', r) →
  (∀ q, fs' !! q = fs !! q ∨ (csv_file_in folder fs q ∧ fs' !! q = None))
  ∧ (r = Ret () ∨ r = Raise FileNotFoundError ∨ r = Raise IsADirectoryError).
Proof.
  revert fs. induction names as [|n ns IH]; intros fs Hrun; simpl in Hrun.
  - injection Hrun as <- <-. split; [by left|by left].
  - rewrite bind_task in Hrun. destruct (endswith n ".csv") eqn:Hcsv.
    + unfold os_remove at 1 in Hrun.
      destruct (fs !! os_path_join folder n) as [[|c]|] eqn:Hn.
      * injection Hrun as <- <-. split; [by left|]. right. by right.
      * destruct (IH _ Hrun) as [Hfs Hr]. split; [|done].
        intros q. destruct (decide (q = os_path_join folder n)) as [->|Hq].
        -- right. split; [by exists n, c|].
           destruct (Hfs (os_path_join folder n)) as [->|[_ ->]]; [apply lookup_delete_eq|done].
        -- destruct (Hfs q) as [->|[(name & c' & -> & Hname & Hc') ->]].
           ++ left. by apply lookup_delete_ne.
           ++ right. split; [|done]. exists name, c'. split; [done|]. split; [done|].
              by rewrite lookup_delete_ne in Hc'.
      * injection Hrun as <- <-. split; [by left|]. right. by left.
    + by apply IH.
Qed.

Lemma cleanup_folder_keeps (listdir_order : list string → list string)
    (folder : path) (fs : files) (q : path) :
  (cleanup_folder listdir_order folder fs).1 !! q = fs !! q
  ∨ (csv_file_in folder fs q ∧ (cleanup_folder listdir_order folder fs).1 !! q = None).
Proof.
  unfold cleanup_folder. rewrite bind_task. unfold lift, os_listdir.
  destruct (isdir fs folder); [|by left].
  destruct (for_each _ _ fs) as [fs' r] eqn:Hrun.
  by destruct (cleanup_loop_only_csv folder _ fs fs' r Hrun) as [Hfs _].
Qed.


Lemma cleanup_loop_gone (folder : path) (names : list string) (fs fs' : files) :
  for_each names (λ file,
    if endswith file ".csv" then os_remove (os_path_join folder file) else mret ()) fs
    = (fs', Ret ()) →
  ∀ name, name ∈ names → endswith name ".csv" = true → fs' !! os_path_join folder name = None.
Proof.
  revert fs. induction names as [|n ns IH]; intros fs Hrun name Hin Hcsv.
  - by apply elem_of_nil in Hin.
  - simpl in Hrun. rewrite bind_task in Hrun. destruct (endswith n ".csv") eqn:Hn.
    + unfold os_remove at 1 in Hrun.
      destruct (fs !! os_path_join folder n) as [[|c]|] eqn:Hp; [done| |done].
      apply elem_of_cons in Hin as [->|Hin]; [|by apply (IH _ Hrun)].
      destruct (cleanup_loop_only_csv folder ns _ fs' _ Hrun) as [Hfs _].
      destruct (Hfs (os_path_join folder n)) as [->|[_ ->]]; [apply lookup_delete_eq|done].
    + apply elem_of_cons in Hin as [->|Hin]; [congruence|]. by apply (IH _ Hrun).
Qed.

Lemma cleanup_loop_nothing (folder : path) (names : list string) (fs : files) :
  (∀ name, name ∈ names → endswith name ".csv" = false) →
  for_each names (λ file,
    if endswith file ".csv" then os_remove (os_path_join folder file) else mret ()) fs
    = (fs, Ret ()).
Proof.
  induction names as [|n ns IH]; intros Hnames; [done|].
  simpl. rewrite bind_task, (Hnames n) by left. apply IH. intros name Hin. apply Hnames. by right.
Qed.

(** X15.  Cleanup can be repeated: when the listing reports the entries of
    the folder and [cleanup_folder] has returned, running it again on the
    files it left returns too and changes nothing, as no entry of the folder
    has a name ending in [.csv] any more. *)
Theorem cleanup_folder_twice (listdir_order : list string → list string)
    (folder : path) (fs fs' : files) :
  (∀ l, listdir_order l ≡ₚ l) →
  cleanup_folder listdir_order folder fs = (fs', Ret ()) →
  (∀ name, name ∈ entries folder fs' → endswith name ".csv" = false)
  ∧ cleanup_folder listdir_order folder fs' = (fs', Ret ()).
Proof.
  intros Hperm Hrun.
  pose proof (cleanup_folder_keeps listdir_order folder fs) as Hfs.
  rewrite Hrun in Hfs. simpl in Hfs.
  unfold cleanup_folder in Hrun. rewrite bind_task in Hrun. unfold lift, os_listdir in Hrun.
  destruct (isdir fs folder) eqn:Hdir; [|done].
  assert (Hnone : ∀ name, name ∈ entries folder fs' → endswith name ".csv" = false).
  { intros name Hin. destruct (endswith name ".csv") eqn:Hcsv; [|done].
    apply elem_of_entries in Hin as [x Hx].
    rewrite (cleanup_loop_gone folder _ fs fs' Hrun name) in Hx; [done| |done].
    rewrite Hperm. apply elem_of_entries.
    destruct (Hfs (os_path_join folder name)) as [<-|[_ Hgone]]; [by eexists|congruence]. }
  split; [done|].
  assert (Hdir' : isdir fs' folder = true).
  { unfold isdir in *. destruct (Hfs folder) as [->|[(name & c & _ & _ & Hc) _]]; [done|].
    rewrite Hc in Hdir. by destruct folder. }
  unfold cleanup_folder. rewrite bind_task. unfold lift, os_listdir. rewrite Hdir'.
  apply cleanup_loop_nothing. intros name Hin. apply Hnone. by rewrite Hperm in Hin.
Qed.

Lemma cleanup_folder_twice_witness :
  (∀ name, name ∈ entries OUTPUT_DIR (cleanup_folder id OUTPUT_DIR fs_with_chart).1 →
     endswith name ".csv" = false)
  ∧ cleanup_folder id OUTPUT_DIR (cleanup_folder id OUTPUT_DIR fs_with_chart).1
    = ((cleanup_folder id OUTPUT_DIR fs_with_chart).1, Ret ()).
Proof.
  apply (cleanup_folder_twice id OUTPUT_DIR fs_with_chart).
  - intros l. reflexivity.
  - vm_compute. reflexivity.
Defined.

(** ** The last task *)

Lemma sched_step_disjoint (s s' : sched) (e : event) :
  (∀ t, t ∈ succeeded s → t ∉ running s) →
  sched_step s e = Some s' →
  ∀ t, t ∈ succeeded s' → t ∉ running s'.
Proof.
  intros Hdis Hstep. destruct e as [t|t|t]; simpl in Hstep;
    case_bool_decide as Hok; [|done| |done| |done]; injection Hstep as <-; simpl.
  - destruct Hok as (_ & Hns & _). intros t' Ht' [->|Hr]%elem_of_cons; [done|].
    by apply (Hdis t').
  - intros t' [->|Ht']%elem_of_cons [Hne Hr]%list_elem_of_filter; [done|]. by apply (Hdis t').
  - intros t' Ht' [Hne Hr]%list_elem_of_filter. by apply (Hdis t').
Qed.

Lemma sched_run_disjoint (es : list event) (s0 s : sched) :
  (∀ t, t ∈ succeeded s0 → t ∉ running s0) →
  sched_run s0 es = Some s →
  ∀ t, t ∈ succeeded s → t ∉ running s.
Proof.
  revert s0. induction es as [|e es IH]; intros s0 Hdis; simpl.
  - by intros [= <-].
  - destruct (sched_step s0 e) as [s1|] eqn:Hstep; simpl; [|done].
    apply IH. by eapply sched_step_disjoint.
Qed.

Lemma sched_run_others_done (es : list event) (s0 s : sched) :
  (∀ t, t ≠ t_cleanup_folder → t ∈ succeeded s0 ∧ t ∉ running s0) →
  sched_run s0 es = Some s →
  ∀ e, e ∈ es → event_task e = t_cleanup_folder.
Proof.
  revert s0. induction es as [|e es IH]; intros s0 Hdone; simpl.
  - by intros _ e ?%elem_of_nil.
  - destruct (sched_step s0 e) as [s1|] eqn:Hstep; simpl; [|done].
    assert (He : event_task e = t_cleanup_folder).
    { destruct (decide (event_task e = t_cleanup_folder)) as [|Hne]; [done|].
      destruct (Hdone _ Hne) as [Hs Hr].
      destruct e as [t|t|t]; simpl in *; case_bool_decide as Hok; try done.
      by destruct Hok as (_ & ? & _). }
    intros Hrun e' [->|He']%elem_of_cons; [done|].
    apply (IH s1); [|done|done].
    intros t Ht. destruct (Hdone t Ht) as [Hs Hr].
    destruct e as [u|u|u]; simpl in He, Hstep; subst u;
      case_bool_decide; try done; injection Hstep as <-; simpl.
    + split; [done|]. by intros [->|?]%elem_of_cons.
    + split; [by right|]. by intros [_ ?]%list_elem_of_filter.
    + split; [done|]. by intros [_ ?]%list_elem_of_filter.
Qed.

(** X16.  Cleanup is the last task of a run: when [cleanup_folder] is
    started every other task of the DAG has succeeded, and no event after
    that is about another task, so no task runs on the folder once its CSV
    files are being removed. *)
Theorem cleanup_runs_last (es pre post : list event) (s : sched) :
  sched_run sched_init es = Some s →
  es = pre ++ Start t_cleanup_folder :: post →
  (∀ t, t ≠ t_cleanup_folder → Succeed t ∈ pre)
  ∧ (∀ e, e ∈ post → event_task e = t_cleanup_folder).
Proof.
  intros Hrun ->. rewrite sched_run_app in Hrun.
  destruct (sched_run sched_init pre) as [s1|] eqn:Hpre; [|by simpl in Hrun].
  change (sched_step s1 (Start t_cleanup_folder) ≫= (λ s', sched_run s' post) = Some s) in Hrun.
  destruct (sched_step s1 (Start t_cleanup_folder)) as [s2|] eqn:Hstep; [|by simpl in Hrun].
  pose proof (sched_run_inv _ _ Hpre) as Hinv.
  assert (Hdis : ∀ t, t ∈ succeeded s1 → t ∉ running s1).
  { apply (sched_run_disjoint pre sched_init); [|done]. by intros t ?%elem_of_nil. }
  simpl in Hstep. case_bool_decide as Hok; [|done]. injection Hstep as <-.
  destruct Hok as (_ & _ & Hall). rewrite Forall_forall in Hall.
  assert (Hothers : ∀ t, t ≠ t_cleanup_folder → t ∈ succeeded s1).
  { intros t Ht. apply (upstream_within_succeeded pre s1 8 t_cleanup_folder t Hinv Hall).
    destruct t; try done; apply (bool_decide_unpack _); vm_compute; exact I. }
  split.
  - intros t Ht. destruct Hinv as [Hsucc _]. by apply Hsucc, Hothers.
  - apply (sched_run_others_done post
             (Sched (t_cleanup_folder :: running s1) (succeeded s1)) s); [|exact Hrun].
    simpl. intros t Ht. split; [by apply Hothers|].
    intros [->|Hr]%elem_of_cons; [done|]. apply (Hdis t); [by apply Hothers|done].
Qed.

Lemma cleanup_runs_last_witness :
  (∀ t, t ≠ t_cleanup_folder → Succeed t ∈ take 14 sequential_run)
  ∧ (∀ e, e ∈ [Succeed t_cleanup_folder] → event_task e = t_cleanup_folder).
Proof.
  apply (cleanup_runs_last sequential_run (take 14 sequential_run) [Succeed t_cleanup_folder]
           (Sched [] [t_cleanup_folder; t_analyze_and_visualize; t_load_to_postgres;
                      t_merge_datasets; t_transform_ratings; t_transform_movies;
                      t_fetch_ratings; t_fetch_movies])).
  - vm_compute. reflexivity.
  - vm_compute. reflexivity.
Defined.

(** ** A whole run *)

Lemma no_csv_subdir_spec (folder : path) (fs : files) :
  no_csv_subdir folder fs = true
  ↔ ∀ name, endswith name ".csv" = true → isdir fs (os_path_join folder name) = false.
Proof.
  unfold no_csv_subdir. rewrite forallb_forall. split.
  - intros H name Hcsv. destruct (isdir fs (os_path_join folder name)) eqn:Hd; [|done].
    specialize (H name). rewrite <- list_elem_of_In, elem_of_entries, Hd, Hcsv in H.
    simpl in H. symmetry. apply H. rewrite isdir_join in Hd.
    by destruct (fs !! os_path_join folder name).
  - intros H name _. destruct (endswith name ".csv") eqn:Hcsv; [|by rewrite andb_false_r].
    by rewrite H.
Qed.

Lemma open_error_csv (fs : files) (name : string) :
  isdir fs OUTPUT_DIR = true →
  no_csv_subdir OUTPUT_DIR fs = true →
  endswith name ".csv" = true →
  open_error fs (os_path_join OUTPUT_DIR name) = None.
Proof.
  intros Hdir Hno Hcsv. unfold open_error.
  by rewrite dirname_join, Hdir, (proj1 (no_csv_subdir_spec _ _) Hno name Hcsv).
Qed.

Lemma output_dir_insert (fs : files) (name : string) (c : content) :
  isdir fs OUTPUT_DIR = true →
  no_csv_subdir OUTPUT_DIR fs = true →
  isdir (<[os_path_join OUTPUT_DIR name := File c]> fs) OUTPUT_DIR = true
  ∧ no_csv_subdir OUTPUT_DIR (<[os_path_join OUTPUT_DIR name := File c]> fs) = true.
Proof.
  intros Hdir Hno. split.
  - by rewrite isdir_insert_file, decide_False by apply join_ne_dir.
  - apply no_csv_subdir_spec. intros n Hn. rewrite isdir_insert_file. case_decide; [done|].
    by apply (proj1 (no_csv_subdir_spec _ _) Hno).
Qed.

Lemma existsb_isfile_insert (fs : files) (q : path) (x : node) (l : list path) :
  q ∉ l → existsb (isfile (<[q := x]> fs)) l = existsb (isfile fs) l.
Proof.
  induction l as [|p l IH]; [done|]. intros [Hp Hl]%not_elem_of_cons. simpl.
  rewrite IH by done. unfold isfile. by rewrite lookup_insert_ne.
Qed.

Lemma cleanup_folder_run (listdir_order : list string → list string)
    (folder : path) (fs : files) :
  (∀ l, listdir_order l ≡ₚ l) →
  isdir fs folder = true →
  no_csv_subdir folder fs = true →
  ∃ fs', cleanup_folder listdir_order folder fs = (fs', Ret ()) ∧ cleaned folder fs fs'.
Proof.
  intros Hperm Hdir Hno.
  assert (Hfile : ∀ name, name ∈ entries folder fs → endswith name ".csv" = true →
                          ∃ c, fs !! os_path_join folder name = Some (File c)).
  { intros name Hin Hcsv. apply elem_of_entries in Hin as [[|c] Hx]; [|by exists c].
    pose proof (proj1 (no_csv_subdir_spec _ _) Hno name Hcsv) as Hd.
    rewrite isdir_join, Hx in Hd. done. }
  destruct (cleanup_loop folder (listdir_order (entries folder fs)) fs) as (fs' & Hrun & Hgone & Hkept).
  { rewrite Hperm. apply NoDup_entries. }
  { intros name Hin. rewrite Hperm in Hin. by apply Hfile. }
  exists fs'. split.
  - unfold cleanup_folder. rewrite bind_task. unfold lift, os_listdir. rewrite Hdir. exact Hrun.
  - intros q. split.
    + intros (name & c & -> & Hcsv & Hc). apply Hgone; [|done].
      rewrite Hperm. apply elem_of_entries. by eexists.
    + intros Hq. apply Hkept. intros name Hin Hcsv ->. rewrite Hperm in Hin.
      destruct (Hfile name Hin Hcsv) as [c Hc]. destruct Hq. by exists name, c.
Qed.

Lemma isdir_lookup (fs : files) (p : path) :
  p ≠ [] → isdir fs p = match fs !! p with Some Dir => true | _ => false end.
Proof. by destruct p. Qed.

Lemma join_ancestors_visuals (name : string) :
  os_path_join OUTPUT_DIR name ∈ ancestors (os_path_join OUTPUT_DIR "visuals") →
  name = "visuals".
Proof.
  intros H. apply list_elem_of_In in H. vm_compute in H.
  destruct H as [H|[H|[H|[H|[H|[]]]]]]; try discriminate H. by injection H as <-.
Qed.

Lemma join_ne_chart (name : string) :
  os_path_join (os_path_join OUTPUT_DIR "visuals") "avg_rating_by_genre.png"
  ≠ os_path_join OUTPUT_DIR name.
Proof. discriminate. Qed.

Section run.
Context (float_repr : Q → string) (listdir_order : list string → list string).
Context (sql_ident : string → option string).

Let pm := os_path_join OUTPUT_DIR "movies.csv".
Let pmt := os_path_join OUTPUT_DIR "movies_transformed.csv".
Let pr := os_path_join OUTPUT_DIR "ratings.csv".
Let prt := os_path_join OUTPUT_DIR "ratings_transformed.csv".
Let pmg := os_path_join OUTPUT_DIR "merged_movies.csv".
Let visuals := os_path_join OUTPUT_DIR "visuals".
Let png := os_path_join visuals "avg_rating_by_genre.png".

(** The files the tasks before cleanup leave. *)
Let fs3 (fs : files) : files :=
  <[pmg := File (Csv merged_csv)]>
    (<[prt := File (Csv ratings_transformed_csv)]>
       (<[pr := File (Csv ratings_csv)]>
          (<[pmt := File (Csv movies_transformed_csv)]>
             (<[pm := File (Csv movies_csv)]> fs)))).

Let fs4 (fs : files) : files :=
  <[png := File (Png (Chart "Average Rating by Genre" "Average Rating"
                        (prod_map id mean <$> ratings_by_genre)))]>
    (foldr (λ q, <[q := Dir]>) (fs3 fs) (ancestors visuals)).

Lemma pipeline_before_cleanup (fs : files) (db : database) (cs : list string) :
  isdir fs OUTPUT_DIR = true →
  no_csv_subdir OUTPUT_DIR fs = true →
  existsb (isfile fs) (ancestors visuals) = false →
  isdir fs png = false →
  idents sql_ident (df_columns merged_csv) = Ret cs →
  NoDup cs →
  accepts_columns db cs = true →
  isdir (fs4 fs) OUTPUT_DIR = true
  ∧ no_csv_subdir OUTPUT_DIR (fs4 fs) = true
  ∧ movies_branch float_repr fs
    = (<[pmt := File (Csv movies_transformed_csv)]> (<[pm := File (Csv movies_csv)]> fs), Ret pmt)
  ∧ ratings_branch float_repr
      (<[pmt := File (Csv movies_transformed_csv)]> (<[pm := File (Csv movies_csv)]> fs))
    = (<[prt := File (Csv ratings_transformed_csv)]>
         (<[pr := File (Csv ratings_csv)]>
            (<[pmt := File (Csv movies_transformed_csv)]>
               (<[pm := File (Csv movies_csv)]> fs))), Ret prt)
  ∧ merge_datasets pmt prt
      (<[prt := File (Csv ratings_transformed_csv)]>
         (<[pr := File (Csv ratings_csv)]>
            (<[pmt := File (Csv movies_transformed_csv)]>
               (<[pm := File (Csv movies_csv)]> fs))))
    = (fs3 fs, Ret pmg)
  ∧ load_to_postgres sql_ident float_repr pmg (fs3 fs) db
    = (Database ({[SCHEMA]} ∪ schemas db)
         (<[(SCHEMA, TARGET_TABLE) :=
              Table (target_columns db cs)
                (target_rows db
                 ++ (inserted_row (target_columns db cs) cs
                       <$> iterrows_str float_repr merged_csv))]> (tables db)),
       Ret 5)
  ∧ analyze_and_visualize pmg (fs3 fs) = (fs4 fs, Ret png).
Proof.
  intros Hdir Hno Hanc Hpng Hid Hnd Hacc.
  destruct (output_dir_insert fs "movies.csv" (Csv movies_csv) Hdir Hno) as [Hdir0 Hno0].
  destruct (output_dir_insert _ "movies_transformed.csv" (Csv movies_transformed_csv) Hdir0 Hno0)
    as [Hdir1 Hno1].
  destruct (output_dir_insert _ "ratings.csv" (Csv ratings_csv) Hdir1 Hno1) as [Hdir1' Hno1'].
  destruct (output_dir_insert _ "ratings_transformed.csv" (Csv ratings_transformed_csv) Hdir1' Hno1')
    as [Hdir2 Hno2].
  destruct (output_dir_insert _ "merged_movies.csv" (Csv merged_csv) Hdir2 Hno2) as [Hdir3 Hno3].
  change (isdir (fs3 fs) OUTPUT_DIR = true) in Hdir3.
  change (no_csv_subdir OUTPUT_DIR (fs3 fs) = true) in Hno3.
  assert (Hdir4 : isdir (fs4 fs) OUTPUT_DIR = true).
  { unfold fs4. rewrite isdir_insert_file, decide_False by done.
    rewrite isdir_lookup, lookup_makedirs, bool_decide_eq_true_2; [done| |done].
    apply (bool_decide_unpack _). vm_compute. exact I. }
  assert (Hno4 : no_csv_subdir OUTPUT_DIR (fs4 fs) = true).
  { apply no_csv_subdir_spec. intros name Hcsv. unfold fs4.
    rewrite isdir_insert_file, decide_False by apply join_ne_chart.
    rewrite isdir_join, lookup_makedirs. case_bool_decide as Hin.
    - apply join_ancestors_visuals in Hin. by subst name.
    - rewrite <- isdir_join. by apply (proj1 (no_csv_subdir_spec _ _) Hno3). }
  split; [done|]. split; [done|]. split.
  { rewrite movies_branch_spec.
    by rewrite (open_error_csv fs "movies.csv" Hdir Hno eq_refl),
      (open_error_csv fs "movies_transformed.csv" Hdir Hno eq_refl). }
  split.
  { unfold pm, pmt, pr, prt. rewrite ratings_branch_spec.
    by rewrite (open_error_csv _ "ratings.csv" Hdir1 Hno1 eq_refl),
      (open_error_csv _ "ratings_transformed.csv" Hdir1 Hno1 eq_refl). }
  split.
  { unfold fs3, pm, pmt, pr, prt, pmg. rewrite merge_datasets_spec. unfold read_csv.
    rewrite !lookup_insert_ne, lookup_insert_eq by done.
    rewrite lookup_insert_eq.
    assert (Hmerge : pd_merge movies_transformed_csv ratings_transformed_csv "movie_id"
                     = Ret merged_csv) by (vm_compute; reflexivity).
    rewrite Hmerge. by rewrite (open_error_csv _ "merged_movies.csv" Hdir2 Hno2 eq_refl). }
  split.
  { rewrite (load_to_postgres_spec sql_ident float_repr pmg (fs3 fs) db merged_csv cs); try done.
    - apply read_csv_written.
    - apply (bool_decide_unpack _). vm_compute. exact I. }
  rewrite analyze_and_visualize_spec. unfold fs3 at 1. rewrite read_csv_written.
  fold (fs3 fs). fold visuals. unfold os_makedirs.
  assert (Hanc3 : existsb (isfile (fs3 fs)) (ancestors visuals) = false).
  { unfold fs3. rewrite !existsb_isfile_insert; [done|..];
      apply (bool_decide_unpack _); vm_compute; exact I. }
  rewrite Hanc3.
  assert (Hmean : groupby_mean merged_csv "genre" "rating"
                  = Ret (prod_map id mean <$> ratings_by_genre)) by (vm_compute; reflexivity).
  rewrite Hmean.
  assert (Hplot : plot_bar (prod_map id mean <$> ratings_by_genre) "Average Rating by Genre"
                  = Ret (Chart "Average Rating by Genre" "" (prod_map id mean <$> ratings_by_genre)))
    by reflexivity.
  rewrite Hplot. fold png.
  assert (Hopen : open_error (foldr (λ q, <[q := Dir]>) (fs3 fs) (ancestors visuals)) png = None).
  { unfold open_error. unfold png at 1. rewrite dirname_join.
    assert (Hd : isdir (foldr (λ q, <[q := Dir]>) (fs3 fs) (ancestors visuals)) visuals = true).
    { rewrite isdir_lookup, lookup_makedirs, bool_decide_eq_true_2; [done| |done].
      apply (bool_decide_unpack _). vm_compute. exact I. }
    rewrite Hd. simpl negb. cbv iota.
    assert (Hp : isdir (foldr (λ q, <[q := Dir]>) (fs3 fs) (ancestors visuals)) png = false).
    { revert Hpng. rewrite !isdir_lookup by done. rewrite lookup_makedirs, bool_decide_eq_false_2.
      - unfold fs3. by rewrite !lookup_insert_ne by done.
      - apply (bool_decide_unpack _). vm_compute. exact I. }
    by rewrite Hp. }
  by rewrite Hopen.
Qed.

Lemma pipeline_csv_files (fs : files) (q : path) :
  q ∈ [pm; pmt; pr; prt; pmg] → csv_file_in OUTPUT_DIR (fs4 fs) q.
Proof.
  assert (Hlook : ∀ p x, p ∈ [pm; pmt; pr; prt; pmg] → fs3 fs !! p = Some x →
                         fs4 fs !! p = Some x).
  { intros p x Hp Hx. unfold fs4. rewrite lookup_insert_ne, lookup_makedirs.
    - rewrite bool_decide_eq_false_2; [done|]. intros Hin.
      repeat (apply elem_of_cons in Hp as [->|Hp]);
        [apply join_ancestors_visuals in Hin; discriminate Hin..|by apply elem_of_nil in Hp].
    - intros <-. repeat (apply elem_of_cons in Hp as [Hp|Hp]); [discriminate Hp..|].
      by apply elem_of_nil in Hp. }
  intros Hq. pose proof Hq as Hq'.
  repeat (apply elem_of_cons in Hq' as [->|Hq']); [..|by apply elem_of_nil in Hq'].
  - exists "movies.csv", (Csv movies_csv). split; [done|]. split; [done|].
    apply Hlook; [done|]. unfold fs3. by rewrite !lookup_insert_ne, lookup_insert_eq by done.
  - exists "movies_transformed.csv", (Csv movies_transformed_csv). split; [done|]. split; [done|].
    apply Hlook; [done|]. unfold fs3. by rewrite !lookup_insert_ne, lookup_insert_eq by done.
  - exists "ratings.csv", (Csv ratings_csv). split; [done|]. split; [done|].
    apply Hlook; [done|]. unfold fs3. by rewrite !lookup_insert_ne, lookup_insert_eq by done.
  - exists "ratings_transformed.csv", (Csv ratings_transformed_csv). split; [done|]. split; [done|].
    apply Hlook; [done|]. unfold fs3. by rewrite !lookup_insert_ne, lookup_insert_eq by done.
  - exists "merged_movies.csv", (Csv merged_csv). split; [done|]. split; [done|].
    apply Hlook; [done|]. unfold fs3. by rewrite lookup_insert_eq.
Qed.


End run.

